(** * Temperature heatmaps: the aggregation and view-update logic of [script.js]

    A shallow embedding of [script.js] and of the parts of the d3 library it
    calls, followed by the properties of the aggregator ([createAggregatedData],
    [createDailyData], the ten-year window of [initVisualizations]) and of the
    two view controllers ([createYearlyHeatmap], [createRecentYearsHeatmap]).

    Conventions of the embedding.
    - Records arrive parsed, as [parseData] leaves the rows of a well-formed
      file: a valid [Date] and two numbers.
    - A JavaScript number that the program only compares (years, months,
      temperatures) is a [Z]; [undefined] and [NaN] are [None] of an option
      type.  Temperatures are the finite numbers of a Daily Record.
    - A number that goes through a scale (pixel positions, interpolation
      parameters) is an exact rational [Q]: the rounding of the program's
      floating-point arithmetic is not modelled.
    - Dates are read in a time zone without offset (local time is UTC), from
      text with a four-digit year.
    - A [Map] is an association list in insertion order, which is the order
      [forEach] visits it in.
    - A transition is represented by the attribute value it ends at. *)

From Stdlib Require Import ZArith QArith Qround List Bool Lia Lqa Permutation Sorted.
Import ListNotations.
Open Scope Z_scope.

(* ================================================================== *)
(** * Definitions *)
(* ================================================================== *)

(** ** JavaScript [Date] *)

(** A [Date] wraps a time value in milliseconds; the calendar fields are
    functions of it (local time is taken to be UTC). *)
Record Date : Type := mkDate { getTime : Z }.

Definition msPerDay : Z := 86400000.

(** Day number (days since 1970-01-01) to proleptic Gregorian (year, month, day). *)
Definition civil_from_days (z : Z) : Z * Z * Z :=
  let z := z + 719468 in
  let era := z / 146097 in
  let doe := z - era * 146097 in
  let yoe := (doe - doe / 1460 + doe / 36524 - doe / 146096) / 365 in
  let doy := doe - (365 * yoe + yoe / 4 - yoe / 100) in
  let mp := (5 * doy + 2) / 153 in
  let d := doy - (153 * mp + 2) / 5 + 1 in
  let m := if mp <? 10 then mp + 3 else mp - 9 in
  let y := yoe + era * 400 in
  (if m <=? 2 then y + 1 else y, m, d).

Definition days_from_civil (y m d : Z) : Z :=
  let y := if m <=? 2 then y - 1 else y in
  let era := y / 400 in
  let yoe := y - era * 400 in
  let doy := (153 * (if 2 <? m then m - 3 else m + 9) + 2) / 5 + d - 1 in
  let doe := yoe * 365 + yoe / 4 - yoe / 100 + doy in
  era * 146097 + doe - 719468.

Definition getFullYear (d : Date) : Z :=
  let '(y, _, _) := civil_from_days (getTime d / msPerDay) in y.

(** [getMonth] is zero-based, as in JavaScript. *)
Definition getMonth (d : Date) : Z :=
  let '(_, m, _) := civil_from_days (getTime d / msPerDay) in m - 1.

Definition getDate (d : Date) : Z :=
  let '(_, _, dd) := civil_from_days (getTime d / msPerDay) in dd.

(** [d3.timeParse("%Y-%m-%d")] on a well-formed string with a four-digit
    year, in a time zone without offset: midnight of that day.  It only builds
    the dates of the example inputs. *)
Definition parseDate (y m d : Z) : Date :=
  mkDate (days_from_civil y m d * msPerDay).

(** ** Data model *)

Record DailyRecord : Type := mkDaily {
  date : Date;
  max_temperature : Z;
  min_temperature : Z
}.

(** A row [(date, max, min)] as the loader yields it. *)
Definition row (y m d : Z) (tmax tmin : Z) : DailyRecord :=
  mkDaily (parseDate y m d) tmax tmin.

(** The objects pushed by [createAggregatedData]. *)
Module Summary.
Record t : Type := mk {
  year : Z;
  month : Z;
  max : option Z;
  min : option Z
}.
End Summary.

(** The objects pushed by [createDailyData]. *)
Module Bucket.
Record t : Type := mk {
  year : Z;
  month : Z;
  days : list DailyRecord
}.
End Bucket.

(** The two values of the [tempType] radio group. *)
Inductive TempType : Type := TMax | TMin.

(** ** [Map] with numeric keys, in insertion order *)

Module InternMap.
Definition t (V : Type) : Type := list (Z * V).

Fixpoint get {V} (m : t V) (key : Z) : option V :=
  match m with
  | [] => None
  | (k, v) :: rest => if k =? key then Some v else get rest key
  end.

(** [set] overwrites in place when the key is present, appends otherwise. *)
Fixpoint set {V} (m : t V) (key : Z) (value : V) : t V :=
  match m with
  | [] => [(key, value)]
  | (k, v) :: rest =>
      if k =? key then (k, value) :: rest else (k, v) :: set rest key value
  end.

Definition keys {V} (m : t V) : list Z := map fst m.

Definition map_values {V W} (f : V -> W) (m : t V) : t W :=
  map (fun kv => (fst kv, f (snd kv))) m.
End InternMap.

(** ** The functions of d3-array the program calls *)

Module d3.

(** [d3.max(values, valueof)]: [undefined] values are skipped; the result is
    [undefined] when nothing is left. *)
Definition max_step {A} (valueof : A -> option Z) (max : option Z) (v : A)
  : option Z :=
  match valueof v with
  | Some value =>
      match max with
      | Some m => if m <? value then Some value else max
      | None => Some value
      end
  | None => max
  end.

Definition max {A} (values : list A) (valueof : A -> option Z) : option Z :=
  fold_left (max_step valueof) values None.

Definition min_step {A} (valueof : A -> option Z) (min : option Z) (v : A)
  : option Z :=
  match valueof v with
  | Some value =>
      match min with
      | Some m => if value <? m then Some value else min
      | None => Some value
      end
  | None => min
  end.

Definition min {A} (values : list A) (valueof : A -> option Z) : option Z :=
  fold_left (min_step valueof) values None.

(** [d3.extent(values, valueof)]: one pass keeping both bounds. *)
Definition extent_step {A} (valueof : A -> option Z)
    (acc : option Z * option Z) (v : A) : option Z * option Z :=
  match valueof v with
  | Some value =>
      match acc with
      | (Some mn, Some mx) =>
          (Some (if value <? mn then value else mn),
           Some (if mx <? value then value else mx))
      | _ => (Some value, Some value)
      end
  | None => acc
  end.

Definition extent {A} (values : list A) (valueof : A -> option Z)
  : option Z * option Z :=
  fold_left (extent_step valueof) values (None, None).

(** [d3.ascending(a, b)] on numbers (and on dates through their time value). *)
Definition ascending (a b : Z) : Z :=
  if a <? b then -1 else if b <? a then 1 else 0.

(** [d3.group] for one key: each value is pushed onto the array of its key,
    a new key is appended to the map. *)
Definition group_step {A} (keyof : A -> Z) (groups : InternMap.t (list A))
    (value : A) : InternMap.t (list A) :=
  let key := keyof value in
  match InternMap.get groups key with
  | Some group => InternMap.set groups key (group ++ [value])
  | None => InternMap.set groups key [value]
  end.

Definition group {A} (values : list A) (keyof : A -> Z)
  : InternMap.t (list A) :=
  fold_left (group_step keyof) values [].

(** [d3.rollup(values, reduce, key1, key2)]: group by [key1], regroup each
    group by [key2], reduce the leaves. *)
Definition rollup {A R} (values : list A) (reduce : list A -> R)
    (key1 key2 : A -> Z) : InternMap.t (InternMap.t R) :=
  InternMap.map_values
    (fun values1 => InternMap.map_values reduce (group values1 key2))
    (group values key1).

End d3.

(** ** [Array.prototype.sort] with a comparator

    The sort is stable, so its result is the one a stable insertion sort
    gives. *)
Fixpoint sort_insert {A} (compare : A -> A -> Z) (x : A) (l : list A) : list A :=
  match l with
  | [] => [x]
  | y :: rest =>
      if compare x y <=? 0 then x :: l else y :: sort_insert compare x rest
  end.

Definition array_sort {A} (compare : A -> A -> Z) (l : list A) : list A :=
  fold_right (sort_insert compare) [] l.

(** [[...new Set(xs)]]: the distinct elements in order of first occurrence. *)
Fixpoint set_of (seen : list Z) (xs : list Z) : list Z :=
  match xs with
  | [] => []
  | x :: rest =>
      if existsb (Z.eqb x) seen then set_of seen rest
      else x :: set_of (x :: seen) rest
  end.

Definition new_Set (xs : list Z) : list Z := set_of [] xs.

(** ** The aggregator *)

Definition year_of (d : DailyRecord) : Z := getFullYear (date d).
Definition month_of (d : DailyRecord) : Z := getMonth (date d) + 1.

Definition createAggregatedData (data : list DailyRecord) : list Summary.t :=
  let aggregatedData :=
    d3.rollup data
      (fun values =>
         (d3.max values (fun d => Some (max_temperature d)),
          d3.min values (fun d => Some (min_temperature d))))
      year_of month_of in
  flat_map
    (fun '(year, months) =>
       map (fun '(month, temps) => Summary.mk year month (fst temps) (snd temps))
           months)
    aggregatedData.

Definition createDailyData (filteredData : list DailyRecord) : list Bucket.t :=
  let dailyDataMap :=
    d3.rollup filteredData
      (fun v =>
         array_sort
           (fun a b => d3.ascending (getTime (date a)) (getTime (date b))) v)
      year_of month_of in
  flat_map
    (fun '(year, months) =>
       map (fun '(month, days) => Bucket.mk year month days) months)
    dailyDataMap.

(** [d.date.getFullYear() >= maxYear - 9]; with [maxYear] undefined the
    right-hand side is [NaN] and the comparison is false. *)
Definition in_window (maxYear : option Z) (d : DailyRecord) : bool :=
  match maxYear with
  | Some my => my - 9 <=? year_of d
  | None => false
  end.

(** ** The scales of d3-scale the program builds *)

Module Scale.

Definition domain : Type := (option Z * option Z)%type.

(** [d3.scaleBand().domain(dom).range([r0, r1]).padding(p)], for a range
    given in increasing order (the program's are [[0, width]] and
    [[0, height]]); alignment is the default one half. *)
Record Band : Type := mkBand {
  band_domain : list Z;
  band_range : Q * Q;
  band_padding : Q
}.

Definition band_n (s : Band) : Q := inject_Z (Z.of_nat (length (band_domain s))).

Definition band_step (s : Band) : Q :=
  let '(r0, r1) := band_range s in
  let p := band_padding s in
  let m := (band_n s - p + p * 2)%Q in
  ((r1 - r0) / (if Qle_bool 1 m then m else 1))%Q.

Definition band_start (s : Band) : Q :=
  let '(r0, r1) := band_range s in
  (r0 + (r1 - r0 - band_step s * (band_n s - band_padding s)) * (1 # 2))%Q.

Definition bandwidth (s : Band) : Q :=
  (band_step s * (1 - band_padding s))%Q.

Fixpoint index_of (x : Z) (dom : list Z) : option nat :=
  match dom with
  | [] => None
  | y :: rest =>
      if y =? x then Some O else option_map S (index_of x rest)
  end.

(** A value outside the domain maps to [undefined]. *)
Definition band (s : Band) (x : Z) : option Q :=
  option_map
    (fun i => (band_start s + band_step s * inject_Z (Z.of_nat i))%Q)
    (index_of x (band_domain s)).

(** [d3.interpolateNumber(a, b)(t)]. *)
Definition interpolateNumber (a b t : Q) : Q := (a * (1 - t) + b * t)%Q.

(** [normalize(a, b)(x)]: a degenerate domain maps everything to one half. *)
Definition normalize (a b x : Z) : Q :=
  if b - a =? 0 then (1 # 2)%Q
  else (inject_Z (x - a) / inject_Z (b - a))%Q.

(** [d3.scaleLinear().domain(dom).range([r0, r1])(x)], not clamped. *)
Definition linear (dom : domain) (range : Q * Q) (x : Z) : option Q :=
  match dom with
  | (Some d0, Some d1) =>
      let '(r0, r1) := range in
      Some (if d1 <? d0
            then interpolateNumber r1 r0 (normalize d1 d0 x)
            else interpolateNumber r0 r1 (normalize d0 d1 x))
  | _ => None
  end.

(** A colour is the value of [d3.interpolateYlOrRd] at a parameter
    ([None] for [NaN]); the interpolator itself is left uninterpreted. *)
Inductive Color : Type := interpolateYlOrRd (t : option Q).

(** [d3.scaleSequential(d3.interpolateYlOrRd).domain(dom)(x)]: [undefined]
    for a missing value. *)
Definition sequential (dom : domain) (x : option Z) : option Color :=
  match x with
  | None => None
  | Some x =>
      Some (interpolateYlOrRd
              match dom with
              | (Some x0, Some x1) =>
                  Some (if x0 =? x1 then (1 # 2)%Q
                        else (inject_Z (x - x0) * (1 / inject_Z (x1 - x0)))%Q)
              | _ => None
              end)
  end.

End Scale.

(** ** The keyed data join of d3-selection

    [selection.data(data, key)] with the key [`${d.year}-${d.month}`], which
    is represented by the pair (year, month) it prints.  The first node of a
    key owns it and the first datum of a key claims it: a claimed owner is
    updated, other data enter, other nodes exit. *)

Module Join.

Definition Key : Type := (Z * Z)%type.

Definition key_eqb (a b : Key) : bool :=
  (fst a =? fst b) && (snd a =? snd b).

Definition mem (k : Key) (ks : list Key) : bool := existsb (key_eqb k) ks.

Section Bind.
Context {N D : Type} (key : D -> Key) (datum : N -> D).

(** The update selection: each surviving node with its new datum. *)
Fixpoint update (seen : list Key) (group : list N) (data : list D)
  : list (N * D) :=
  match group with
  | [] => []
  | n :: rest =>
      let k := key (datum n) in
      if mem k seen then update seen rest data
      else match find (fun d => key_eqb (key d) k) data with
           | Some d => (n, d) :: update (k :: seen) rest data
           | None => update (k :: seen) rest data
           end
  end.

(** The enter selection: the data that found no node. *)
Fixpoint enter (seen : list Key) (nodeKeys : list Key) (data : list D)
  : list D :=
  match data with
  | [] => []
  | d :: rest =>
      let k := key d in
      if mem k nodeKeys && negb (mem k seen)
      then enter (k :: seen) nodeKeys rest
      else d :: enter (k :: seen) nodeKeys rest
  end.

Definition bind (group : list N) (data : list D) : list (N * D) * list D :=
  (update [] group data, enter [] (map (fun n => key (datum n)) group) data).
End Bind.

End Join.

(** [array.map((d, i) => f(d, i))]. *)
Fixpoint mapi_from {A B} (i : nat) (f : A -> nat -> B) (l : list A) : list B :=
  match l with
  | [] => []
  | a :: rest => f a i :: mapi_from (S i) f rest
  end.

Definition mapi {A B} (f : A -> nat -> B) (l : list A) : list B :=
  mapi_from O f l.

(** The calls a view controller offers to the mode coordinator. *)
Inductive Call : Type :=
  | CallUpdateMatrix (tempType : TempType)
  | CallUpdateLegend (tempType : TempType).

(** ** [createYearlyHeatmap]: the aggregated year by month view *)

Module YearlyHeatmap.

Definition width : Q := (900 - 80 - 30)%Q.
Definition height : Q := (450 - 50 - 80)%Q.

(** A [rect.matrix] element with its bound datum and attributes. *)
Record Rect : Type := mkRect {
  datum : Summary.t;
  x : option Q;
  y : option Q;
  rect_width : Q;
  rect_height : Q;
  fill : option Scale.Color
}.

(** The closure of [createYearlyHeatmap]: its constants, the domain of the
    legend scale and the [.matrix] elements of the drawing. *)
Record t : Type := mk {
  processedData : list Summary.t;
  xScale : Scale.Band;
  yScale : Scale.Band;
  colorScale : Scale.domain;
  legendScale : Scale.domain;
  matrix : list Rect
}.

Definition key (d : Summary.t) : Join.Key := (Summary.year d, Summary.month d).

(** [d[tempType]]. *)
Definition field (tempType : TempType) (d : Summary.t) : option Z :=
  match tempType with
  | TMax => Summary.max d
  | TMin => Summary.min d
  end.

Definition updateMatrix (tempType : TempType) (h : t) : t :=
  let '(cells, entering) :=
    Join.bind key datum (matrix h) (processedData h) in
  let entered :=
    map (fun d =>
           mkRect d
             (Scale.band (xScale h) (Summary.year d))
             (Scale.band (yScale h) (Summary.month d))
             (Scale.bandwidth (xScale h))
             (Scale.bandwidth (yScale h))
             None)
        entering in
  let updated :=
    map (fun '(n, d) =>
           mkRect d (x n) (y n) (rect_width n) (rect_height n) (fill n))
        cells in
  let merged := updated ++ entered in
  mk (processedData h) (xScale h) (yScale h) (colorScale h) (legendScale h)
     (map (fun n =>
             mkRect (datum n) (x n) (y n) (rect_width n) (rect_height n)
               (Scale.sequential (colorScale h) (field tempType (datum n))))
          merged).

Definition getExtent (h : t) (tempType : TempType) : Scale.domain :=
  match tempType with
  | TMax => d3.extent (processedData h) Summary.max
  | TMin => d3.extent (processedData h) Summary.min
  end.

Definition updateLegend (tempType : TempType) (h : t) : t :=
  mk (processedData h) (xScale h) (yScale h) (colorScale h)
     (getExtent h tempType) (matrix h).

Definition create (processedData : list Summary.t) : t :=
  let xScale :=
    Scale.mkBand (new_Set (map Summary.year processedData)) (0%Q, width) (1 # 10)%Q in
  let yScale :=
    Scale.mkBand (new_Set (map Summary.month processedData)) (0%Q, height) (1 # 10)%Q in
  let colorScale :=
    (d3.min processedData Summary.min, d3.max processedData Summary.max) in
  let legendScale :=
    (d3.min processedData Summary.min, d3.max processedData Summary.max) in
  updateMatrix TMax
    (mk processedData xScale yScale colorScale legendScale []).

Definition call (c : Call) (h : t) : t :=
  match c with
  | CallUpdateMatrix tempType => updateMatrix tempType h
  | CallUpdateLegend tempType => updateLegend tempType h
  end.

(** The heatmap after a sequence of calls, oldest first. *)
Definition run (calls : list Call) (h : t) : t :=
  fold_left (fun h c => call c h) calls h.

End YearlyHeatmap.

Definition createYearlyHeatmap := YearlyHeatmap.create.

(** ** The shared tooltip element *)

(** The markup the recent-years view writes: [Date: .. Max: .. Min: ..] of one
    day. *)
Inductive Html : Type :=
  | DayText (day_date : Date) (day_max day_min : Z).

Module Tooltip.
Record t : Type := mk {
  display : bool;
  html : option Html;
  left : option Z;
  top : option Z
}.

(** As appended by [createYearlyHeatmap]: hidden and empty. *)
Definition initial : t := mk false None None None.
End Tooltip.

(** What a handler reads from a mouse event: the pointer's horizontal offset
    within the cell ([d3.pointer(event, this)[0]]) and the page position. *)
Record MouseEvent : Type := mkMouseEvent {
  pointer_x : Q;
  pageX : Z;
  pageY : Z
}.

Inductive Hover : Type :=
  | Mouseover (d : Bucket.t) (event : MouseEvent)
  | Mousemove (d : Bucket.t) (event : MouseEvent)
  | Mouseout.

(** [array[index]]: [undefined] for an index that is not one of the array's. *)
Definition array_get {A} (l : list A) (index : option Z) : option A :=
  match index with
  | Some i => if i <? 0 then None else nth_error l (Z.to_nat i)
  | None => None
  end.

(** ** [createRecentYearsHeatmap]: the daily view of the last ten years *)

Module RecentYearsHeatmap.

Definition width : Q := (900 - 80 - 30)%Q.
Definition height : Q := (500 - 50 - 100)%Q.

Definition Point : Type := (option Q * option Q)%type.

(** A [g.cell] element: its datum, its [transform], the [rect.cell-bg] and
    the points of the two [path]s. *)
Record Cell : Type := mkCell {
  datum : Bucket.t;
  transform : option Q * option Q;
  bg_width : Q;
  bg_height : Q;
  bg_fill : option Scale.Color;
  mini_line_max : list Point;
  mini_line_min : list Point
}.

Record t : Type := mk {
  processedDailyData : list Bucket.t;
  filteredData : list DailyRecord;
  xScale : Scale.Band;
  yScale : Scale.Band;
  globalMiniExtent : Scale.domain;
  legendScale : Scale.domain;
  cells : list Cell
}.

Definition key (d : Bucket.t) : Join.Key := (Bucket.year d, Bucket.month d).

Definition getGlobalTempExtent (h : t) (tempType : TempType) : Scale.domain :=
  match tempType with
  | TMax => d3.extent (filteredData h) (fun d => Some (max_temperature d))
  | TMin => d3.extent (filteredData h) (fun d => Some (min_temperature d))
  end.

(** The value a cell's background is coloured by. *)
Definition aggVal (tempType : TempType) (d : Bucket.t) : option Z :=
  match tempType with
  | TMax => d3.max (Bucket.days d) (fun day => Some (max_temperature day))
  | TMin => d3.min (Bucket.days d) (fun day => Some (min_temperature day))
  end.

(** The horizontal scale of one cell's mini chart. *)
Definition xMini (h : t) (d : Bucket.t) : Z -> option Q :=
  Scale.linear (Some 1, Some (Z.of_nat (length (Bucket.days d))))
               (0%Q, Scale.bandwidth (xScale h)).

(** The vertical scale of every mini chart. *)
Definition yMini (h : t) : Z -> option Q :=
  Scale.linear (globalMiniExtent h) (Scale.bandwidth (yScale h), 0%Q).

(** [d3.line().x((_, i) => xMini(i + 1)).y(day => yMini(value(day)))(days)]:
    the points the generator is given, one per day, in the days' order.  The
    path text it writes from them (coordinates to three decimals) is not
    modelled. *)
Definition line (h : t) (d : Bucket.t) (value : DailyRecord -> Z) : list Point :=
  mapi (fun day i => (xMini h d (Z.of_nat i + 1), yMini h (value day)))
       (Bucket.days d).

Definition updateMatrix (tempType : TempType) (h : t) : t :=
  let colorScale := getGlobalTempExtent h tempType in
  let '(cells, entering) :=
    Join.bind key datum (cells h) (processedDailyData h) in
  let cellsEnter :=
    map (fun d =>
           mkCell d
             (Scale.band (xScale h) (Bucket.year d),
              Scale.band (yScale h) (Bucket.month d))
             (Scale.bandwidth (xScale h))
             (Scale.bandwidth (yScale h))
             None [] [])
        entering in
  let updated :=
    map (fun '(n, d) =>
           mkCell d (transform n) (bg_width n) (bg_height n) (bg_fill n)
                  (mini_line_max n) (mini_line_min n))
        cells in
  let cellsMerge := updated ++ cellsEnter in
  mk (processedDailyData h) (filteredData h) (xScale h) (yScale h)
     (globalMiniExtent h) (legendScale h)
     (map (fun n =>
             mkCell (datum n) (transform n) (bg_width n) (bg_height n)
               (Scale.sequential colorScale (aggVal tempType (datum n)))
               (line h (datum n) max_temperature)
               (line h (datum n) min_temperature))
          cellsMerge).

Definition updateLegend (tempType : TempType) (h : t) : t :=
  mk (processedDailyData h) (filteredData h) (xScale h) (yScale h)
     (globalMiniExtent h) (getGlobalTempExtent h tempType) (cells h).

Definition create (processedDailyData : list Bucket.t)
    (filteredData : list DailyRecord) : t :=
  let years :=
    array_sort (fun a b => a - b) (new_Set (map Bucket.year processedDailyData)) in
  let months :=
    array_sort (fun a b => a - b) (new_Set (map Bucket.month processedDailyData)) in
  let xScale := Scale.mkBand years (0%Q, width) (1 # 10)%Q in
  let yScale := Scale.mkBand months (0%Q, height) (1 # 10)%Q in
  let globalMiniExtent :=
    (d3.min filteredData (fun d => Some (min_temperature d)),
     d3.max filteredData (fun d => Some (max_temperature d))) in
  let legendScale :=
    (d3.min filteredData (fun d => Some (min_temperature d)),
     d3.max filteredData (fun d => Some (max_temperature d))) in
  updateMatrix TMax
    (mk processedDailyData filteredData xScale yScale globalMiniExtent
        legendScale []).

Definition call (c : Call) (h : t) : t :=
  match c with
  | CallUpdateMatrix tempType => updateMatrix tempType h
  | CallUpdateLegend tempType => updateLegend tempType h
  end.

Definition run (calls : list Call) (h : t) : t :=
  fold_left (fun h c => call c h) calls h.

(** [Math.floor((mx / xScale.bandwidth()) * d.days.length)]; a zero
    bandwidth makes the quotient infinite or [NaN], hence no index.  The
    quotient and the product are exact here, so that next to a boundary
    between two days, or to the cell's right edge, the program's rounded
    arithmetic may give the neighbouring index. *)
Definition dayIndex (h : t) (d : Bucket.t) (event : MouseEvent) : option Z :=
  if Qeq_bool (Scale.bandwidth (xScale h)) 0 then None
  else Some (Qfloor ((pointer_x event / Scale.bandwidth (xScale h))
                     * inject_Z (Z.of_nat (length (Bucket.days d))))%Q).

Definition dayData (h : t) (d : Bucket.t) (event : MouseEvent)
  : option DailyRecord :=
  array_get (Bucket.days d) (dayIndex h d event).

Definition mouseover (h : t) (d : Bucket.t) (event : MouseEvent)
    (tooltip : Tooltip.t) : Tooltip.t :=
  match dayData h d event with
  | Some day =>
      Tooltip.mk true
        (Some (DayText (date day) (max_temperature day) (min_temperature day)))
        (Tooltip.left tooltip) (Tooltip.top tooltip)
  | None => tooltip
  end.

Definition mousemove (h : t) (d : Bucket.t) (event : MouseEvent)
    (tooltip : Tooltip.t) : Tooltip.t :=
  match dayData h d event with
  | Some _ =>
      Tooltip.mk (Tooltip.display tooltip) (Tooltip.html tooltip)
        (Some (pageX event + 10)) (Some (pageY event - 10))
  | None => tooltip
  end.

Definition mouseout (tooltip : Tooltip.t) : Tooltip.t :=
  Tooltip.mk false (Tooltip.html tooltip)
    (Tooltip.left tooltip) (Tooltip.top tooltip).

Definition hover (h : t) (e : Hover) (tooltip : Tooltip.t) : Tooltip.t :=
  match e with
  | Mouseover d event => mouseover h d event tooltip
  | Mousemove d event => mousemove h d event tooltip
  | Mouseout => mouseout tooltip
  end.

End RecentYearsHeatmap.

Definition createRecentYearsHeatmap := RecentYearsHeatmap.create.

(** ** The page: [initVisualizations] and [setupEventListeners] *)

Record Page : Type := mkPage {
  heatmap1 : YearlyHeatmap.t;
  heatmap2 : RecentYearsHeatmap.t;
  tooltip : Tooltip.t
}.

Definition initVisualizations (data : list DailyRecord) : Page :=
  let processedData := createAggregatedData data in
  let maxYear := d3.max data (fun d => Some (year_of d)) in
  let filteredData := filter (in_window maxYear) data in
  let processedDailyData := createDailyData filteredData in
  let heatmap1 := createYearlyHeatmap processedData in
  let heatmap2 := createRecentYearsHeatmap processedDailyData filteredData in
  mkPage heatmap1 heatmap2 Tooltip.initial.

(** The [change] handler installed by [setupEventListeners]. *)
Definition change (selectedType : TempType) (p : Page) : Page :=
  let h1 := YearlyHeatmap.updateMatrix selectedType (heatmap1 p) in
  let h2 := RecentYearsHeatmap.updateMatrix selectedType (heatmap2 p) in
  let h1 := YearlyHeatmap.updateLegend selectedType h1 in
  let h2 := RecentYearsHeatmap.updateLegend selectedType h2 in
  mkPage h1 h2 (tooltip p).

(** The three rows of the specification's scenario. *)
Definition scenario : list DailyRecord :=
  [row 2020 1 15 10 2; row 2020 1 20 15 (-1); row 2020 2 1 5 (-5)].

(** A dataset of the single year 2015. *)
Definition only_2015 : list DailyRecord :=
  [row 2015 3 1 20 10; row 2015 7 4 31 25; row 2015 7 5 30 24].

(** Two months whose days all have the same temperature, the coldest and the
    warmest of the set. *)
Definition flat_months : list DailyRecord :=
  [row 2020 1 15 0 0; row 2020 2 1 10 10].

(** The two buckets of the scenario. *)
Definition january_2020 : Bucket.t :=
  Bucket.mk 2020 1 [row 2020 1 15 10 2; row 2020 1 20 15 (-1)].

Definition february_2020 : Bucket.t :=
  Bucket.mk 2020 2 [row 2020 2 1 5 (-5)].

(** Two pointer positions in a cell of the scenario, which is about 646
    pixels wide and holds two days in January. *)
Definition pointer_on_day_1 : MouseEvent := mkMouseEvent 100 200 100.
Definition pointer_on_day_2 : MouseEvent := mkMouseEvent 500 600 100.

(** ** Vocabulary of the statements *)

Definition is_max_of (m : Z) (l : list Z) : Prop :=
  In m l /\ forall x, In x l -> x <= m.

Definition is_min_of (m : Z) (l : list Z) : Prop :=
  In m l /\ forall x, In x l -> m <= x.

(** The records of one (year, month) group. *)
Definition same_month (y m : Z) (d : DailyRecord) : bool :=
  (year_of d =? y) && (month_of d =? m).

Definition date_le (a b : DailyRecord) : Prop :=
  getTime (date a) <= getTime (date b).

(** The values of one key, in input order. *)
Definition members {A} (keyof : A -> Z) (values : list A) (k : Z) : list A :=
  filter (fun v => keyof v =? k) values.

(** The leaves of a two-level grouping, in the order the nested [forEach]
    visits them. *)
Definition leaves {A} (values : list A) (key1 key2 : A -> Z)
  : list (Z * Z * list A) :=
  flat_map
    (fun '(k1, values1) =>
       map (fun '(k2, values2) => (k1, k2, values2)) (d3.group values1 key2))
    (d3.group values key1).

(** The [rect.matrix] element the aggregated view draws for a summary. *)
Definition rect_of (h : YearlyHeatmap.t) (tempType : TempType) (d : Summary.t)
  : YearlyHeatmap.Rect :=
  YearlyHeatmap.mkRect d
    (Scale.band (YearlyHeatmap.xScale h) (Summary.year d))
    (Scale.band (YearlyHeatmap.yScale h) (Summary.month d))
    (Scale.bandwidth (YearlyHeatmap.xScale h))
    (Scale.bandwidth (YearlyHeatmap.yScale h))
    (Scale.sequential (YearlyHeatmap.colorScale h)
       (YearlyHeatmap.field tempType d)).

(** The [g.cell] element the recent-years view draws for a bucket. *)
Definition cell_of (h : RecentYearsHeatmap.t) (tempType : TempType)
    (d : Bucket.t) : RecentYearsHeatmap.Cell :=
  RecentYearsHeatmap.mkCell d
    (Scale.band (RecentYearsHeatmap.xScale h) (Bucket.year d),
     Scale.band (RecentYearsHeatmap.yScale h) (Bucket.month d))
    (Scale.bandwidth (RecentYearsHeatmap.xScale h))
    (Scale.bandwidth (RecentYearsHeatmap.yScale h))
    (Scale.sequential (RecentYearsHeatmap.getGlobalTempExtent h tempType)
       (RecentYearsHeatmap.aggVal tempType d))
    (RecentYearsHeatmap.line h d max_temperature)
    (RecentYearsHeatmap.line h d min_temperature).

(** Two closures that differ at most in the legend domain and the drawing. *)
Definition same_closure1 (h h' : YearlyHeatmap.t) : Prop :=
  YearlyHeatmap.processedData h' = YearlyHeatmap.processedData h
  /\ YearlyHeatmap.xScale h' = YearlyHeatmap.xScale h
  /\ YearlyHeatmap.yScale h' = YearlyHeatmap.yScale h
  /\ YearlyHeatmap.colorScale h' = YearlyHeatmap.colorScale h.

Definition same_closure2 (h h' : RecentYearsHeatmap.t) : Prop :=
  RecentYearsHeatmap.processedDailyData h' = RecentYearsHeatmap.processedDailyData h
  /\ RecentYearsHeatmap.filteredData h' = RecentYearsHeatmap.filteredData h
  /\ RecentYearsHeatmap.xScale h' = RecentYearsHeatmap.xScale h
  /\ RecentYearsHeatmap.yScale h' = RecentYearsHeatmap.yScale h
  /\ RecentYearsHeatmap.globalMiniExtent h' = RecentYearsHeatmap.globalMiniExtent h.

(** The drawing shows every datum once, as drawn for one field. *)
Definition drawn1 (h : YearlyHeatmap.t) : Prop :=
  exists tempType,
    YearlyHeatmap.matrix h = map (rect_of h tempType) (YearlyHeatmap.processedData h).

Definition drawn2 (h : RecentYearsHeatmap.t) : Prop :=
  exists tempType,
    RecentYearsHeatmap.cells h
    = map (cell_of h tempType) (RecentYearsHeatmap.processedDailyData h).

(** Two readings of the same day, and the bucket they fall in. *)
Definition same_day_twice : list DailyRecord :=
  [row 2020 1 15 10 2; row 2020 1 15 11 3].

Definition same_day_bucket : Bucket.t := Bucket.mk 2020 1 same_day_twice.

(** One record a year from 2020 back to 2010, latest first. *)
Definition eleven_years : list DailyRecord :=
  map (fun y => row y 6 1 25 15)
      [2020; 2019; 2018; 2017; 2016; 2015; 2014; 2013; 2012; 2011; 2010].

(** ** Sequences of user events *)

(** The page after the user selected the given fields, oldest first. *)
Definition toggles (selected : list TempType) (p : Page) : Page :=
  fold_left (fun p selectedType => change selectedType p) selected p.

(** The calls one [change] event makes on a view. *)
Definition calls_of (selected : list TempType) : list Call :=
  flat_map (fun f => [CallUpdateMatrix f; CallUpdateLegend f]) selected.

(** The tooltip after a sequence of hover events on the recent-years view. *)
Definition hovers (h : RecentYearsHeatmap.t) (events : list Hover)
    (tooltip : Tooltip.t) : Tooltip.t :=
  fold_left (fun tooltip e => RecentYearsHeatmap.hover h e tooltip) events tooltip.

(** The bucket an event is about. *)
Definition hovered (e : Hover) : option Bucket.t :=
  match e with
  | Mouseover d _ | Mousemove d _ => Some d
  | Mouseout => None
  end.

(** The records of one instant. *)
Definition at_time (t : Z) (d : DailyRecord) : bool := getTime (date d) =? t.

(* ================================================================== *)
(** * Properties *)
(* ================================================================== *)

(** ** Calendar sanity *)

Example parseDate_fields :
  map (fun d => (getFullYear d, getMonth d, getDate d))
      [parseDate 2020 1 15; parseDate 2000 2 29; parseDate 1969 12 31;
       parseDate 2015 12 31; parseDate 1970 1 1]
  = [(2020, 0, 15); (2000, 1, 29); (1969, 11, 31); (2015, 11, 31); (1970, 0, 1)].
Proof. vm_compute. reflexivity. Qed.

(** ** [d3.max], [d3.min], [d3.extent] *)

Section Extrema.
Context {A : Type} (valueof : A -> option Z).

Lemma max_fold_spec (l : list A) : forall acc,
  match fold_left (d3.max_step valueof) l acc with
  | Some m =>
      (acc = Some m \/ exists a, In a l /\ valueof a = Some m)
      /\ (forall x, acc = Some x -> x <= m)
      /\ (forall a x, In a l -> valueof a = Some x -> x <= m)
  | None => acc = None /\ forall a, In a l -> valueof a = None
  end.
Proof.
  induction l as [|v l IH]; intros acc; simpl.
  - destruct acc as [m|].
    + split; [now left|]. split; [intros x [= ->]; lia | contradiction].
    + split; [reflexivity | contradiction].
  - specialize (IH (d3.max_step valueof acc v)).
    destruct (fold_left _ l _) as [m|].
    + destruct IH as (Hin & Hacc & Hall).
      unfold d3.max_step in Hin, Hacc.
      destruct (valueof v) as [value|] eqn:Ev.
      * destruct acc as [m0|].
        -- destruct (Z.ltb_spec m0 value).
           ++ split; [|split].
              ** right. destruct Hin as [[= <-] | (a & Ha & Ea)];
                   [exists v; auto | exists a; auto].
              ** intros x [= ->]. specialize (Hacc _ eq_refl). lia.
              ** intros a x [<- | Ha] Ea; [|eauto].
                 rewrite Ev in Ea. injection Ea as <-. auto.
           ++ split; [|split].
              ** destruct Hin as [? | (a & Ha & Ea)];
                   [now left | right; exists a; auto].
              ** exact Hacc.
              ** intros a x [<- | Ha] Ea; [|eauto].
                 rewrite Ev in Ea. injection Ea as <-.
                 specialize (Hacc _ eq_refl). lia.
        -- split; [|split].
           ++ right. destruct Hin as [[= <-] | (a & Ha & Ea)];
                [exists v; auto | exists a; auto].
           ++ discriminate.
           ++ intros a x [<- | Ha] Ea; [|eauto].
              rewrite Ev in Ea. injection Ea as <-. auto.
      * split; [|split]; auto.
        -- destruct Hin as [? | (a & Ha & Ea)];
             [now left | right; exists a; auto].
        -- intros a x [<- | Ha] Ea; [congruence | eauto].
    + destruct IH as (Hacc & Hall).
      unfold d3.max_step in Hacc.
      destruct (valueof v) as [value|] eqn:Ev.
      * destruct acc as [m0|]; [destruct (m0 <? value)|]; discriminate.
      * split; [assumption|]. intros a [<- | Ha]; auto.
  Qed.

Lemma min_fold_spec (l : list A) : forall acc,
  match fold_left (d3.min_step valueof) l acc with
  | Some m =>
      (acc = Some m \/ exists a, In a l /\ valueof a = Some m)
      /\ (forall x, acc = Some x -> m <= x)
      /\ (forall a x, In a l -> valueof a = Some x -> m <= x)
  | None => acc = None /\ forall a, In a l -> valueof a = None
  end.
Proof.
  induction l as [|v l IH]; intros acc; simpl.
  - destruct acc as [m|].
    + split; [now left|]. split; [intros x [= ->]; lia | contradiction].
    + split; [reflexivity | contradiction].
  - specialize (IH (d3.min_step valueof acc v)).
    destruct (fold_left _ l _) as [m|].
    + destruct IH as (Hin & Hacc & Hall).
      unfold d3.min_step in Hin, Hacc.
      destruct (valueof v) as [value|] eqn:Ev.
      * destruct acc as [m0|].
        -- destruct (Z.ltb_spec value m0).
           ++ split; [|split].
              ** right. destruct Hin as [[= <-] | (a & Ha & Ea)];
                   [exists v; auto | exists a; auto].
              ** intros x [= ->]. specialize (Hacc _ eq_refl). lia.
              ** intros a x [<- | Ha] Ea; [|eauto].
                 rewrite Ev in Ea. injection Ea as <-. auto.
           ++ split; [|split].
              ** destruct Hin as [? | (a & Ha & Ea)];
                   [now left | right; exists a; auto].
              ** exact Hacc.
              ** intros a x [<- | Ha] Ea; [|eauto].
                 rewrite Ev in Ea. injection Ea as <-.
                 specialize (Hacc _ eq_refl). lia.
        -- split; [|split].
           ++ right. destruct Hin as [[= <-] | (a & Ha & Ea)];
                [exists v; auto | exists a; auto].
           ++ discriminate.
           ++ intros a x [<- | Ha] Ea; [|eauto].
              rewrite Ev in Ea. injection Ea as <-. auto.
      * split; [|split]; auto.
        -- destruct Hin as [? | (a & Ha & Ea)];
             [now left | right; exists a; auto].
        -- intros a x [<- | Ha] Ea; [congruence | eauto].
    + destruct IH as (Hacc & Hall).
      unfold d3.min_step in Hacc.
      destruct (valueof v) as [value|] eqn:Ev.
      * destruct acc as [m0|]; [destruct (value <? m0)|]; discriminate.
      * split; [assumption|]. intros a [<- | Ha]; auto.
  Qed.

End Extrema.

Lemma d3_max_char {A} (l : list A) (valueof : A -> option Z) (r : option Z) :
  d3.max l valueof = r <->
  match r with
  | Some m =>
      (exists a, In a l /\ valueof a = Some m)
      /\ (forall a x, In a l -> valueof a = Some x -> x <= m)
  | None => forall a, In a l -> valueof a = None
  end.
Proof.
  pose proof (max_fold_spec valueof l None) as H. fold (d3.max l valueof) in H.
  split.
  - intros <-. destruct (d3.max l valueof) as [m|].
    + destruct H as ([? | Hex] & _ & Hall); [discriminate | auto].
    + apply H.
  - destruct (d3.max l valueof) as [m|], r as [m'|]; intros Hr.
    + destruct H as ([? | (a & Ha & Ea)] & _ & Hall); [discriminate|].
      destruct Hr as ((a' & Ha' & Ea') & Hall').
      f_equal. specialize (Hall _ _ Ha' Ea'). specialize (Hall' _ _ Ha Ea). lia.
    + destruct H as ([? | (a & Ha & Ea)] & _); [discriminate|].
      rewrite (Hr _ Ha) in Ea. discriminate.
    + destruct H as (_ & Hnone). destruct Hr as ((a & Ha & Ea) & _).
      rewrite (Hnone _ Ha) in Ea. discriminate.
    + reflexivity.
Qed.

Lemma d3_min_char {A} (l : list A) (valueof : A -> option Z) (r : option Z) :
  d3.min l valueof = r <->
  match r with
  | Some m =>
      (exists a, In a l /\ valueof a = Some m)
      /\ (forall a x, In a l -> valueof a = Some x -> m <= x)
  | None => forall a, In a l -> valueof a = None
  end.
Proof.
  pose proof (min_fold_spec valueof l None) as H. fold (d3.min l valueof) in H.
  split.
  - intros <-. destruct (d3.min l valueof) as [m|].
    + destruct H as ([? | Hex] & _ & Hall); [discriminate | auto].
    + apply H.
  - destruct (d3.min l valueof) as [m|], r as [m'|]; intros Hr.
    + destruct H as ([? | (a & Ha & Ea)] & _ & Hall); [discriminate|].
      destruct Hr as ((a' & Ha' & Ea') & Hall').
      f_equal. specialize (Hall _ _ Ha' Ea'). specialize (Hall' _ _ Ha Ea). lia.
    + destruct H as ([? | (a & Ha & Ea)] & _); [discriminate|].
      rewrite (Hr _ Ha) in Ea. discriminate.
    + destruct H as (_ & Hnone). destruct Hr as ((a & Ha & Ea) & _).
      rewrite (Hnone _ Ha) in Ea. discriminate.
    + reflexivity.
Qed.

(** The result only depends on which values occur. *)
Lemma d3_max_same_elements {A} (l1 l2 : list A) (valueof : A -> option Z) :
  (forall a, In a l1 <-> In a l2) -> d3.max l1 valueof = d3.max l2 valueof.
Proof.
  intros Hin. apply d3_max_char.
  pose proof (proj1 (d3_max_char l2 valueof _) eq_refl) as H.
  destruct (d3.max l2 valueof) as [m|].
  - destruct H as ((a & Ha & Ea) & Hall). split.
    + exists a. split; [now apply Hin | assumption].
    + intros a' x Ha'. apply Hall. now apply Hin.
  - intros a Ha. apply H. now apply Hin.
Qed.

Lemma d3_min_same_elements {A} (l1 l2 : list A) (valueof : A -> option Z) :
  (forall a, In a l1 <-> In a l2) -> d3.min l1 valueof = d3.min l2 valueof.
Proof.
  intros Hin. apply d3_min_char.
  pose proof (proj1 (d3_min_char l2 valueof _) eq_refl) as H.
  destruct (d3.min l2 valueof) as [m|].
  - destruct H as ((a & Ha & Ea) & Hall). split.
    + exists a. split; [now apply Hin | assumption].
    + intros a' x Ha'. apply Hall. now apply Hin.
  - intros a Ha. apply H. now apply Hin.
Qed.

(** On a column of numbers the result is the true maximum. *)
Lemma d3_max_is_max {A} (l : list A) (g : A -> Z) (m : Z) :
  d3.max l (fun a => Some (g a)) = Some m <-> is_max_of m (map g l).
Proof.
  rewrite d3_max_char. unfold is_max_of. split.
  - intros ((a & Ha & [= <-]) & Hall). split.
    + now apply in_map.
    + intros x (a' & <- & Ha')%in_map_iff. eauto.
  - intros ((a & <- & Ha)%in_map_iff & Hall). split.
    + eauto.
    + intros a' x Ha' [= <-]. apply Hall. now apply in_map.
Qed.

Lemma d3_min_is_min {A} (l : list A) (g : A -> Z) (m : Z) :
  d3.min l (fun a => Some (g a)) = Some m <-> is_min_of m (map g l).
Proof.
  rewrite d3_min_char. unfold is_min_of. split.
  - intros ((a & Ha & [= <-]) & Hall). split.
    + now apply in_map.
    + intros x (a' & <- & Ha')%in_map_iff. eauto.
  - intros ((a & <- & Ha)%in_map_iff & Hall). split.
    + eauto.
    + intros a' x Ha' [= <-]. apply Hall. now apply in_map.
Qed.

Lemma d3_max_defined {A} (l : list A) (g : A -> Z) :
  l <> [] -> exists m, d3.max l (fun a => Some (g a)) = Some m.
Proof.
  intros Hl. destruct (d3.max l _) as [m|] eqn:E; [eauto|].
  apply d3_max_char in E. destruct l as [|a l]; [congruence|].
  specialize (E a (or_introl eq_refl)). discriminate.
Qed.

Lemma d3_min_defined {A} (l : list A) (g : A -> Z) :
  l <> [] -> exists m, d3.min l (fun a => Some (g a)) = Some m.
Proof.
  intros Hl. destruct (d3.min l _) as [m|] eqn:E; [eauto|].
  apply d3_min_char in E. destruct l as [|a l]; [congruence|].
  specialize (E a (or_introl eq_refl)). discriminate.
Qed.

Lemma is_max_of_unique (m m' : Z) (l : list Z) :
  is_max_of m l -> is_max_of m' l -> m = m'.
Proof. intros [H1 H2] [H3 H4]. specialize (H2 _ H3). specialize (H4 _ H1). lia. Qed.

Lemma is_min_of_unique (m m' : Z) (l : list Z) :
  is_min_of m l -> is_min_of m' l -> m = m'.
Proof. intros [H1 H2] [H3 H4]. specialize (H2 _ H3). specialize (H4 _ H1). lia. Qed.

(** [d3.extent] is the pair of [d3.min] and [d3.max]. *)
Lemma extent_fold {A} (valueof : A -> option Z) (l : list A) :
  forall mn mx,
    (mn = None <-> mx = None) ->
    fold_left (d3.extent_step valueof) l (mn, mx)
    = (fold_left (d3.min_step valueof) l mn, fold_left (d3.max_step valueof) l mx).
Proof.
  induction l as [|v l IH]; intros mn mx Hb; simpl; [reflexivity|].
  unfold d3.extent_step at 2, d3.min_step at 2, d3.max_step at 2.
  destruct (valueof v) as [value|]; [|now apply IH].
  destruct mn as [a|], mx as [b|].
  - destruct (value <? a), (b <? value); apply IH; split; discriminate.
  - destruct Hb as [_ Hb]. specialize (Hb eq_refl). discriminate.
  - destruct Hb as [Hb _]. specialize (Hb eq_refl). discriminate.
  - apply IH. split; discriminate.
Qed.

Lemma d3_extent_min_max {A} (l : list A) (valueof : A -> option Z) :
  d3.extent l valueof = (d3.min l valueof, d3.max l valueof).
Proof. apply extent_fold. tauto. Qed.

(** ** [new Set] *)

Lemma existsb_eqb_In (x : Z) (l : list Z) :
  existsb (Z.eqb x) l = true <-> In x l.
Proof.
  rewrite existsb_exists. split.
  - intros (y & Hy & ->%Z.eqb_eq). assumption.
  - intros H. exists x. split; [assumption | apply Z.eqb_refl].
Qed.

Lemma set_of_In (xs : list Z) : forall seen k,
  In k (set_of seen xs) <-> In k xs /\ ~ In k seen.
Proof.
  induction xs as [|x xs IH]; intros seen k; simpl; [tauto|].
  destruct (existsb (Z.eqb x) seen) eqn:E.
  - apply existsb_eqb_In in E. rewrite IH. split.
    + tauto.
    + intros [[<- | H] Hk]; tauto.
  - assert (~ In x seen) as Hx
      by (rewrite <- existsb_eqb_In; congruence).
    simpl. rewrite IH. simpl. split.
    + intros [<- | [H Hk]]; [tauto|]. split; [tauto|]. intros ?; tauto.
    + intros [[<- | H] Hk]; [tauto|].
      destruct (Z.eq_dec x k) as [-> | Hne]; [tauto|]. right. tauto.
Qed.

Lemma set_of_NoDup (xs : list Z) : forall seen, NoDup (set_of seen xs).
Proof.
  induction xs as [|x xs IH]; intros seen; simpl; [constructor|].
  destruct (existsb (Z.eqb x) seen); [apply IH|].
  constructor; [|apply IH].
  rewrite set_of_In. simpl. tauto.
Qed.

Lemma set_of_snoc_old (xs : list Z) : forall seen x,
  In x seen \/ In x xs -> set_of seen (xs ++ [x]) = set_of seen xs.
Proof.
  induction xs as [|y xs IH]; intros seen x Hx; simpl.
  - destruct Hx as [Hx | []].
    apply existsb_eqb_In in Hx. now rewrite Hx.
  - destruct (existsb (Z.eqb y) seen) eqn:E.
    + apply IH. destruct Hx as [Hx | [<- | Hx]]; auto.
      left. now apply existsb_eqb_In.
    + f_equal. apply IH. simpl. destruct Hx as [Hx | [<- | Hx]]; auto.
Qed.

Lemma set_of_snoc_new (xs : list Z) : forall seen x,
  ~ In x seen -> ~ In x xs -> set_of seen (xs ++ [x]) = set_of seen xs ++ [x].
Proof.
  induction xs as [|y xs IH]; intros seen x Hs Hx; simpl.
  - destruct (existsb (Z.eqb x) seen) eqn:E; [|reflexivity].
    apply existsb_eqb_In in E. contradiction.
  - simpl in Hx. destruct (existsb (Z.eqb y) seen) eqn:E.
    + apply IH; tauto.
    + simpl. f_equal. apply IH; simpl; intuition congruence.
Qed.

Lemma new_Set_In (xs : list Z) (k : Z) : In k (new_Set xs) <-> In k xs.
Proof. unfold new_Set. rewrite set_of_In. simpl. tauto. Qed.

Lemma new_Set_NoDup (xs : list Z) : NoDup (new_Set xs).
Proof. apply set_of_NoDup. Qed.

(** ** [d3.group] in closed form *)

Section Grouping.
Context {A : Type} (keyof : A -> Z).

Lemma get_tabulated (F : Z -> list A) (S : list Z) (key : Z) :
  InternMap.get (map (fun k => (k, F k)) S) key
  = if existsb (Z.eqb key) S then Some (F key) else None.
Proof.
  induction S as [|k S IH]; simpl; [reflexivity|].
  rewrite (Z.eqb_sym key k).
  destruct (Z.eqb_spec k key) as [-> | Hne]; simpl; [reflexivity | apply IH].
Qed.

Lemma set_tabulated_old (F : Z -> list A) (S : list Z) (key : Z) (v : list A) :
  NoDup S -> In key S ->
  InternMap.set (map (fun k => (k, F k)) S) key v
  = map (fun k => (k, if k =? key then v else F k)) S.
Proof.
  induction S as [|k S IH]; intros Hnd Hin; simpl; [contradiction|].
  inversion Hnd as [|? ? Hk Hnd']; subst.
  destruct (Z.eqb_spec k key) as [-> | Hne].
  - f_equal. apply map_ext_in. intros k Hk'.
    destruct (Z.eqb_spec k key) as [-> | ?]; [contradiction | reflexivity].
  - f_equal. apply IH; [assumption|]. destruct Hin; [contradiction | assumption].
Qed.

Lemma set_tabulated_new (F : Z -> list A) (S : list Z) (key : Z) (v : list A) :
  ~ In key S ->
  InternMap.set (map (fun k => (k, F k)) S) key v
  = map (fun k => (k, F k)) S ++ [(key, v)].
Proof.
  induction S as [|k S IH]; intros Hin; simpl; [reflexivity|].
  simpl in Hin. destruct (Z.eqb_spec k key) as [-> | Hne]; [tauto|].
  f_equal. apply IH. tauto.
Qed.

Lemma members_snoc (values : list A) (v : A) (k : Z) :
  members keyof (values ++ [v]) k
  = members keyof values k ++ (if keyof v =? k then [v] else []).
Proof. unfold members. rewrite filter_app. reflexivity. Qed.

Lemma members_nil (values : list A) (k : Z) :
  ~ In k (map keyof values) -> members keyof values k = [].
Proof.
  intros Hk. unfold members. induction values as [|v values IH]; simpl; [reflexivity|].
  simpl in Hk. destruct (Z.eqb_spec (keyof v) k); [tauto|]. apply IH. tauto.
Qed.

Lemma group_closed (values : list A) :
  d3.group values keyof
  = map (fun k => (k, members keyof values k)) (new_Set (map keyof values)).
Proof.
  induction values as [|v values IH] using rev_ind; [reflexivity|].
  unfold d3.group in *. rewrite fold_left_app. simpl. rewrite IH.
  unfold d3.group_step. rewrite get_tabulated, map_app. simpl.
  destruct (existsb (Z.eqb (keyof v)) (new_Set (map keyof values))) eqn:E.
  - apply existsb_eqb_In in E.
    rewrite set_tabulated_old by (auto using new_Set_NoDup).
    rewrite new_Set_In in E.
    unfold new_Set. rewrite set_of_snoc_old by (right; exact E).
    apply map_ext. intros k. rewrite members_snoc, (Z.eqb_sym k).
    destruct (Z.eqb_spec (keyof v) k) as [<- | ?]; [reflexivity | now rewrite app_nil_r].
  - assert (~ In (keyof v) (map keyof values)) as Hk.
    { rewrite <- new_Set_In, <- existsb_eqb_In. congruence. }
    rewrite set_tabulated_new by (now rewrite new_Set_In).
    unfold new_Set. rewrite set_of_snoc_new by (simpl; tauto).
    rewrite map_app. simpl. f_equal.
    + apply map_ext_in. intros k Hk'. rewrite members_snoc.
      destruct (Z.eqb_spec (keyof v) k) as [<- | ?];
        [|now rewrite app_nil_r].
      apply set_of_In in Hk'. tauto.
    + rewrite members_snoc, Z.eqb_refl, members_nil by assumption. reflexivity.
Qed.

End Grouping.

(** ** The leaves of [d3.rollup] *)

Lemma rollup_flatten {A R S} (values : list A) (reduce : list A -> R)
    (key1 key2 : A -> Z) (mk : Z -> Z -> R -> S) :
  flat_map (fun '(k1, inner) => map (fun '(k2, r) => mk k1 k2 r) inner)
           (d3.rollup values reduce key1 key2)
  = map (fun '(k1, k2, leaf) => mk k1 k2 (reduce leaf)) (leaves values key1 key2).
Proof.
  unfold d3.rollup, leaves, InternMap.map_values.
  induction (d3.group values key1) as [|[k1 values1] g IH]; simpl; [reflexivity|].
  rewrite map_app, IH. f_equal.
  rewrite !map_map. apply map_ext. intros [k2 leaf]. reflexivity.
Qed.

Lemma filter_filter {A} (p q : A -> bool) (l : list A) :
  filter q (filter p l) = filter (fun a => p a && q a) l.
Proof.
  induction l as [|a l IH]; simpl; [reflexivity|].
  destruct (p a); simpl; [destruct (q a)|]; now rewrite IH.
Qed.

Lemma leaves_closed {A} (values : list A) (key1 key2 : A -> Z) :
  leaves values key1 key2
  = flat_map
      (fun k1 =>
         map (fun k2 =>
                (k1, k2,
                 filter (fun v => (key1 v =? k1) && (key2 v =? k2)) values))
             (new_Set (map key2 (members key1 values k1))))
      (new_Set (map key1 values)).
Proof.
  unfold leaves. rewrite group_closed.
  induction (new_Set (map key1 values)) as [|k1 S IH]; simpl; [reflexivity|].
  rewrite IH. f_equal. rewrite group_closed, map_map.
  apply map_ext. intros k2. unfold members. now rewrite filter_filter.
Qed.

Lemma leaves_In {A} (values : list A) (key1 key2 : A -> Z) k1 k2 leaf :
  In (k1, k2, leaf) (leaves values key1 key2) <->
  (exists v, In v values /\ key1 v = k1 /\ key2 v = k2)
  /\ leaf = filter (fun v => (key1 v =? k1) && (key2 v =? k2)) values.
Proof.
  rewrite leaves_closed, in_flat_map. split.
  - intros (y & Hy & (m & E & Hm)%in_map_iff).
    injection E as -> -> <-. split; [|reflexivity].
    rewrite new_Set_In, in_map_iff in Hm. destruct Hm as (v & Ev & Hv).
    apply filter_In in Hv. destruct Hv as [Hv Ey%Z.eqb_eq]. eauto.
  - intros ((v & Hv & <- & <-) & ->). exists (key1 v). split.
    + apply new_Set_In. now apply in_map.
    + apply in_map_iff. exists (key2 v). split; [reflexivity|].
      apply new_Set_In, in_map. apply filter_In. split; [assumption | apply Z.eqb_refl].
Qed.

Lemma NoDup_pairs (S1 : list Z) (S2 : Z -> list Z) :
  NoDup S1 -> (forall k1, NoDup (S2 k1)) ->
  NoDup (flat_map (fun k1 => map (pair k1) (S2 k1)) S1).
Proof.
  intros H1 H2. induction H1 as [|k1 S1 Hk1 H1 IH]; simpl; [constructor|].
  apply NoDup_app.
  - apply Finite.Injective_map_NoDup; [|apply H2]. intros a b [= ->]. reflexivity.
  - exact IH.
  - intros [a b] (m & [= <- <-] & Hm)%in_map_iff Hin.
    apply in_flat_map in Hin. destruct Hin as (y & Hy & (m' & [= <- <-] & _)%in_map_iff).
    contradiction.
Qed.

Lemma leaves_NoDup {A} (values : list A) (key1 key2 : A -> Z) :
  NoDup (map (fun '(k1, k2, _) => (k1, k2)) (leaves values key1 key2)).
Proof.
  rewrite leaves_closed.
  match goal with
  | |- NoDup (map ?f (flat_map ?g ?S1)) =>
      replace (map f (flat_map g S1))
        with (flat_map
                (fun k1 => map (pair k1)
                             (new_Set (map key2 (members key1 values k1)))) S1)
  end.
  - apply NoDup_pairs; intros; apply new_Set_NoDup.
  - induction (new_Set (map key1 values)) as [|k1 S IH]; simpl; [reflexivity|].
    rewrite map_app, IH, map_map. reflexivity.
Qed.

(** [createAggregatedData] and [createDailyData] over the leaves. *)
Lemma createAggregatedData_leaves (data : list DailyRecord) :
  createAggregatedData data
  = map (fun '(y, m, values) =>
           Summary.mk y m
             (d3.max values (fun d => Some (max_temperature d)))
             (d3.min values (fun d => Some (min_temperature d))))
        (leaves data year_of month_of).
Proof.
  unfold createAggregatedData.
  exact (rollup_flatten data _ year_of month_of
           (fun y m temps => Summary.mk y m (fst temps) (snd temps))).
Qed.

Lemma createDailyData_leaves (data : list DailyRecord) :
  createDailyData data
  = map (fun '(y, m, values) =>
           Bucket.mk y m
             (array_sort
                (fun a b => d3.ascending (getTime (date a)) (getTime (date b)))
                values))
        (leaves data year_of month_of).
Proof.
  unfold createDailyData.
  exact (rollup_flatten data _ year_of month_of Bucket.mk).
Qed.

(** ** [Array.prototype.sort] *)

Lemma sort_insert_Permutation {A} (compare : A -> A -> Z) (x : A) (l : list A) :
  Permutation (sort_insert compare x l) (x :: l).
Proof.
  induction l as [|y l IH]; simpl; [reflexivity|].
  destruct (compare x y <=? 0); [reflexivity|].
  rewrite IH. apply perm_swap.
Qed.

Lemma array_sort_Permutation {A} (compare : A -> A -> Z) (l : list A) :
  Permutation (array_sort compare l) l.
Proof.
  induction l as [|x l IH]; simpl; [constructor|].
  rewrite sort_insert_Permutation. now constructor.
Qed.

Lemma ascending_le (a b : Z) : (d3.ascending a b <=? 0) = (a <=? b).
Proof.
  unfold d3.ascending.
  destruct (Z.ltb_spec a b), (Z.ltb_spec b a), (Z.leb_spec a b);
    simpl; try reflexivity; lia.
Qed.

Lemma sort_insert_sorted {A} (time : A -> Z) (x : A) (l : list A) :
  StronglySorted (fun a b => time a <= time b) l ->
  StronglySorted (fun a b => time a <= time b)
    (sort_insert (fun a b => d3.ascending (time a) (time b)) x l).
Proof.
  induction 1 as [|y l Hs IH Hy]; simpl.
  - repeat constructor.
  - rewrite ascending_le.
    destruct (Z.leb_spec (time x) (time y)) as [Hle | Hgt].
    + constructor; [constructor; assumption|].
      constructor; [exact Hle|].
      rewrite Forall_forall in *. intros z Hz. specialize (Hy z Hz). lia.
    + constructor; [exact IH|].
      rewrite Forall_forall in *. intros z Hz.
      apply (Permutation_in _ (sort_insert_Permutation _ x l)) in Hz.
      destruct Hz as [<- | Hz]; [lia | auto].
Qed.

Lemma array_sort_sorted {A} (time : A -> Z) (l : list A) :
  StronglySorted (fun a b => time a <= time b)
    (array_sort (fun a b => d3.ascending (time a) (time b)) l).
Proof.
  induction l as [|x l IH]; simpl; [constructor|].
  now apply sort_insert_sorted.
Qed.

(** ** The aggregator *)

Lemma same_month_members (data : list DailyRecord) (y m : Z) :
  filter (fun v => (year_of v =? y) && (month_of v =? m)) data
  = filter (same_month y m) data.
Proof. reflexivity. Qed.

Lemma group_present (data : list DailyRecord) (y m : Z) :
  (exists d, In d data /\ year_of d = y /\ month_of d = m) <->
  (exists values, In (y, m, values) (leaves data year_of month_of)).
Proof.
  split.
  - intros H. eexists. apply leaves_In. split; [exact H | reflexivity].
  - intros (values & H). apply leaves_In in H. tauto.
Qed.

Lemma group_nonempty (data : list DailyRecord) (y m : Z) :
  (exists d, In d data /\ year_of d = y /\ month_of d = m) ->
  filter (same_month y m) data <> [].
Proof.
  intros (d & Hd & Hy & Hm) E.
  assert (In d (filter (same_month y m) data)) as H.
  { apply filter_In. split; [assumption|]. unfold same_month.
    rewrite Hy, Hm, !Z.eqb_refl. reflexivity. }
  rewrite E in H. contradiction.
Qed.

Example createAggregatedData_scenario :
  createAggregatedData scenario
  = [Summary.mk 2020 1 (Some 15) (Some (-1));
     Summary.mk 2020 2 (Some 5) (Some (-5))].
Proof. vm_compute. reflexivity. Qed.

(** C1. [createAggregatedData] yields exactly one Monthly Summary for each
    (year, month) pair that occurs in the input and none for any other pair;
    the summary's [max] is the maximum of [max_temperature] and its [min] the
    minimum of [min_temperature] over the records of that pair.  This holds
    for every input sequence, the non-empty ones in particular, and on the
    three rows of the scenario the result is the two summaries
    (2020, 1, 15, -1) and (2020, 2, 5, -5). *)
Theorem createAggregatedData_correct :
  (forall data : list DailyRecord,
      NoDup (map YearlyHeatmap.key (createAggregatedData data))
      /\ (forall y m,
            (exists d, In d data /\ year_of d = y /\ month_of d = m) <->
            (exists s, In s (createAggregatedData data)
                       /\ Summary.year s = y /\ Summary.month s = m))
      /\ (forall s, In s (createAggregatedData data) ->
            exists hi lo,
              Summary.max s = Some hi /\ Summary.min s = Some lo
              /\ is_max_of hi
                   (map max_temperature
                      (filter (same_month (Summary.year s) (Summary.month s)) data))
              /\ is_min_of lo
                   (map min_temperature
                      (filter (same_month (Summary.year s) (Summary.month s)) data))))
  /\ createAggregatedData scenario
     = [Summary.mk 2020 1 (Some 15) (Some (-1));
        Summary.mk 2020 2 (Some 5) (Some (-5))].
Proof.
  split; [|exact createAggregatedData_scenario].
  intros data. rewrite createAggregatedData_leaves. split; [|split].
  - rewrite map_map.
    erewrite map_ext; [apply (leaves_NoDup data year_of month_of)|].
    intros [[y m] values]. reflexivity.
  - intros y m. split.
    + intros (values & H)%group_present.
      eexists. split; [apply in_map_iff; eexists; split; [reflexivity | exact H]|].
      simpl. auto.
    + intros (s & (([y' m'] & values) & <- & H)%in_map_iff & <- & <-).
      simpl. apply group_present. eauto.
  - intros s (([y m] & values) & <- & H)%in_map_iff. simpl.
    apply leaves_In in H. destruct H as [Hex ->].
    rewrite same_month_members.
    apply group_nonempty in Hex.
    destruct (d3_max_defined _ max_temperature Hex) as [hi Hhi].
    destruct (d3_min_defined _ min_temperature Hex) as [lo Hlo].
    exists hi, lo. split; [assumption|]. split; [assumption|]. split.
    + now apply d3_max_is_max.
    + now apply d3_min_is_min.
Qed.

(** C2. [createDailyData] yields exactly one bucket for each (year, month)
    pair that occurs in its input and none for any other pair; the [days] of a
    bucket are in non-decreasing order of date and are a rearrangement of the
    input records of that pair, so none is omitted and none duplicated, and no
    bucket is empty. *)
Theorem createDailyData_correct (data : list DailyRecord) :
  NoDup (map RecentYearsHeatmap.key (createDailyData data))
  /\ (forall y m,
        (exists d, In d data /\ year_of d = y /\ month_of d = m) <->
        (exists b, In b (createDailyData data)
                   /\ Bucket.year b = y /\ Bucket.month b = m))
  /\ (forall b, In b (createDailyData data) ->
        StronglySorted date_le (Bucket.days b)
        /\ Permutation (Bucket.days b)
             (filter (same_month (Bucket.year b) (Bucket.month b)) data)
        /\ Bucket.days b <> []).
Proof.
  rewrite createDailyData_leaves. split; [|split].
  - rewrite map_map.
    erewrite map_ext; [apply (leaves_NoDup data year_of month_of)|].
    intros [[y m] values]. reflexivity.
  - intros y m. split.
    + intros (values & H)%group_present.
      eexists. split; [apply in_map_iff; eexists; split; [reflexivity | exact H]|].
      simpl. auto.
    + intros (s & (([y' m'] & values) & <- & H)%in_map_iff & <- & <-).
      simpl. apply group_present. eauto.
  - intros b (([y m] & values) & <- & H)%in_map_iff. simpl.
    apply leaves_In in H. destruct H as [Hex ->]. split; [|split].
    + apply (array_sort_sorted (fun d => getTime (date d))).
    + apply array_sort_Permutation.
    + apply group_nonempty in Hex. intros E. apply Hex.
      apply Permutation_nil. rewrite <- E. apply array_sort_Permutation.
Qed.

(** ** The keyed data join *)

Lemma key_eqb_eq (a b : Join.Key) : Join.key_eqb a b = true <-> a = b.
Proof.
  destruct a as [a1 a2], b as [b1 b2]. unfold Join.key_eqb. simpl.
  rewrite andb_true_iff, !Z.eqb_eq. split; [intros [-> ->] | intros [= -> ->]]; auto.
Qed.

Lemma mem_In (k : Join.Key) (ks : list Join.Key) :
  Join.mem k ks = true <-> In k ks.
Proof.
  unfold Join.mem. rewrite existsb_exists. split.
  - intros (k' & Hk & ->%key_eqb_eq). assumption.
  - intros H. exists k. split; [assumption | now apply key_eqb_eq].
Qed.

Lemma mem_false (k : Join.Key) (ks : list Join.Key) :
  ~ In k ks -> Join.mem k ks = false.
Proof.
  intros H. destruct (Join.mem k ks) eqn:E; [|reflexivity].
  apply mem_In in E. contradiction.
Qed.

Section JoinFacts.
Context {N D : Type} (key : D -> Join.Key) (datum : N -> D).

Lemma enter_no_nodes (data : list D) : forall seen,
  Join.enter key seen [] data = data.
Proof.
  induction data as [|d data IH]; intros seen; simpl; [reflexivity|].
  now rewrite IH.
Qed.

(** With no element yet, every datum enters. *)
Lemma bind_empty (data : list D) :
  Join.bind key datum [] data = ([], data).
Proof. unfold Join.bind. simpl. now rewrite enter_no_nodes. Qed.

Lemma find_own_key (data : list D) (d : D) :
  NoDup (map key data) -> In d data ->
  find (fun d' => Join.key_eqb (key d') (key d)) data = Some d.
Proof.
  induction data as [|d0 data IH]; intros Hnd Hin; simpl; [contradiction|].
  inversion Hnd as [|? ? Hd0 Hnd']; subst.
  destruct Hin as [-> | Hin].
  - now rewrite (proj2 (key_eqb_eq _ _) eq_refl).
  - destruct (Join.key_eqb (key d0) (key d)) eqn:E; [|now apply IH].
    apply key_eqb_eq in E. exfalso. apply Hd0. rewrite E. now apply in_map.
Qed.

Section Rendered.
Context (R : D -> N) (HR : forall d, datum (R d) = d).
Context (data : list D) (Hdata : NoDup (map key data)).

Lemma update_rendered (l : list D) : forall seen,
  incl l data -> NoDup (map key l) ->
  (forall d, In d l -> ~ In (key d) seen) ->
  Join.update key datum seen (map R l) data = map (fun d => (R d, d)) l.
Proof.
  induction l as [|d l IH]; intros seen Hincl Hnd Hseen; simpl; [reflexivity|].
  inversion Hnd as [|? ? Hd Hnd']; subst.
  rewrite HR, mem_false by (apply Hseen; now left).
  rewrite find_own_key by (auto; apply Hincl; now left).
  f_equal. apply IH.
  - intros x Hx. apply Hincl. now right.
  - assumption.
  - intros x Hx [E | Hin].
    + apply Hd. rewrite E. now apply in_map.
    + apply (Hseen x); [now right | assumption].
Qed.

Lemma enter_rendered (l : list D) : forall seen nodeKeys,
  incl (map key l) nodeKeys -> NoDup (map key l) ->
  (forall d, In d l -> ~ In (key d) seen) ->
  Join.enter key seen nodeKeys l = [].
Proof.
  induction l as [|d l IH]; intros seen nodeKeys Hincl Hnd Hseen; simpl;
    [reflexivity|].
  inversion Hnd as [|? ? Hd Hnd']; subst.
  rewrite (mem_false _ seen) by (apply Hseen; now left).
  rewrite (proj2 (mem_In _ _)) by (apply Hincl; now left).
  simpl. apply IH.
  - intros x Hx. apply Hincl. now right.
  - assumption.
  - intros x Hx [E | Hin].
    + apply Hd. rewrite E. now apply in_map.
    + apply (Hseen x); [now right | assumption].
Qed.

(** When the elements are those drawn for the same data, every one is
    updated with its own datum; nothing enters and nothing exits. *)
Lemma bind_rendered :
  Join.bind key datum (map R data) data = (map (fun d => (R d, d)) data, []).
Proof.
  unfold Join.bind. f_equal.
  - apply update_rendered; [apply incl_refl | assumption | auto].
  - apply enter_rendered; [|assumption | auto].
    rewrite map_map. erewrite map_ext; [apply incl_refl|].
    intros d. simpl. now rewrite HR.
Qed.

End Rendered.
End JoinFacts.

(** ** The aggregated view: frame and drawing *)

Lemma summaries_NoDup (data : list DailyRecord) :
  NoDup (map YearlyHeatmap.key (createAggregatedData data)).
Proof.
  rewrite createAggregatedData_leaves, map_map.
  erewrite map_ext; [apply (leaves_NoDup data year_of month_of)|].
  intros [[y m] values]. reflexivity.
Qed.

Lemma buckets_NoDup (data : list DailyRecord) :
  NoDup (map RecentYearsHeatmap.key (createDailyData data)).
Proof.
  rewrite createDailyData_leaves, map_map.
  erewrite map_ext; [apply (leaves_NoDup data year_of month_of)|].
  intros [[y m] values]. reflexivity.
Qed.

Lemma same_closure1_refl h : same_closure1 h h.
Proof. repeat split. Qed.

Lemma same_closure1_trans h1 h2 h3 :
  same_closure1 h1 h2 -> same_closure1 h2 h3 -> same_closure1 h1 h3.
Proof.
  unfold same_closure1. intros (A1 & A2 & A3 & A4) (B1 & B2 & B3 & B4).
  repeat split; congruence.
Qed.

Lemma rect_of_closure h h' tempType d :
  same_closure1 h h' -> rect_of h' tempType d = rect_of h tempType d.
Proof. intros (_ & Hx & Hy & Hc). unfold rect_of. now rewrite Hx, Hy, Hc. Qed.

Lemma updateMatrix1_closure tempType h :
  same_closure1 h (YearlyHeatmap.updateMatrix tempType h)
  /\ YearlyHeatmap.legendScale (YearlyHeatmap.updateMatrix tempType h)
     = YearlyHeatmap.legendScale h.
Proof. repeat split. Qed.

Lemma updateLegend1_closure tempType h :
  same_closure1 h (YearlyHeatmap.updateLegend tempType h)
  /\ YearlyHeatmap.matrix (YearlyHeatmap.updateLegend tempType h)
     = YearlyHeatmap.matrix h.
Proof. repeat split. Qed.

Lemma updateMatrix1_first tempType h :
  YearlyHeatmap.matrix h = [] ->
  YearlyHeatmap.matrix (YearlyHeatmap.updateMatrix tempType h)
  = map (rect_of h tempType) (YearlyHeatmap.processedData h).
Proof.
  intros E. unfold YearlyHeatmap.updateMatrix. rewrite E, bind_empty. simpl.
  rewrite map_map. reflexivity.
Qed.

Lemma updateMatrix1_again tempType h :
  NoDup (map YearlyHeatmap.key (YearlyHeatmap.processedData h)) ->
  drawn1 h ->
  YearlyHeatmap.matrix (YearlyHeatmap.updateMatrix tempType h)
  = map (rect_of h tempType) (YearlyHeatmap.processedData h).
Proof.
  intros Hnd [f E]. unfold YearlyHeatmap.updateMatrix.
  rewrite E, bind_rendered by auto. simpl.
  rewrite app_nil_r, !map_map. reflexivity.
Qed.

Lemma updateMatrix1_drawn tempType h :
  NoDup (map YearlyHeatmap.key (YearlyHeatmap.processedData h)) ->
  drawn1 h -> drawn1 (YearlyHeatmap.updateMatrix tempType h).
Proof.
  intros Hnd Hd. exists tempType.
  rewrite updateMatrix1_again by assumption.
  destruct (updateMatrix1_closure tempType h) as [Hc _].
  destruct Hc as [-> _]. apply map_ext. intros d.
  symmetry. apply rect_of_closure. apply updateMatrix1_closure.
Qed.

Lemma create1_closure (processedData : list Summary.t) :
  let h := createYearlyHeatmap processedData in
  YearlyHeatmap.processedData h = processedData
  /\ YearlyHeatmap.colorScale h
     = (d3.min processedData Summary.min, d3.max processedData Summary.max)
  /\ YearlyHeatmap.legendScale h
     = (d3.min processedData Summary.min, d3.max processedData Summary.max).
Proof. repeat split. Qed.

Lemma create1_drawn (processedData : list Summary.t) :
  drawn1 (createYearlyHeatmap processedData).
Proof.
  exists TMax. unfold createYearlyHeatmap, YearlyHeatmap.create.
  rewrite updateMatrix1_first by reflexivity.
  apply map_ext. intros d. symmetry. apply rect_of_closure.
  apply updateMatrix1_closure.
Qed.

Lemma run1_invariant (calls : list Call) : forall h,
  NoDup (map YearlyHeatmap.key (YearlyHeatmap.processedData h)) ->
  drawn1 h ->
  same_closure1 h (YearlyHeatmap.run calls h)
  /\ drawn1 (YearlyHeatmap.run calls h).
Proof.
  induction calls as [|c calls IH]; intros h Hnd Hd; simpl.
  - split; [apply same_closure1_refl | assumption].
  - assert (same_closure1 h (YearlyHeatmap.call c h)
            /\ drawn1 (YearlyHeatmap.call c h)) as [Hc Hd'].
    { destruct c as [f | f]; simpl.
      - split; [apply updateMatrix1_closure | now apply updateMatrix1_drawn].
      - split; [apply updateLegend1_closure|].
        destruct Hd as [f0 E]. exists f0. exact E. }
    destruct (IH (YearlyHeatmap.call c h)) as [Hc' Hd''].
    + destruct Hc as [-> _]. assumption.
    + assumption.
    + split; [|assumption]. eapply same_closure1_trans; eassumption.
Qed.

(** ** The recent-years view: frame and drawing *)

Lemma same_closure2_refl h : same_closure2 h h.
Proof. repeat split. Qed.

Lemma same_closure2_trans h1 h2 h3 :
  same_closure2 h1 h2 -> same_closure2 h2 h3 -> same_closure2 h1 h3.
Proof.
  unfold same_closure2. intros (A1 & A2 & A3 & A4 & A5) (B1 & B2 & B3 & B4 & B5).
  repeat split; congruence.
Qed.

Lemma cell_of_closure h h' tempType d :
  same_closure2 h h' -> cell_of h' tempType d = cell_of h tempType d.
Proof.
  intros (_ & Hf & Hx & Hy & Hg).
  unfold cell_of, RecentYearsHeatmap.line, RecentYearsHeatmap.xMini,
    RecentYearsHeatmap.yMini, RecentYearsHeatmap.getGlobalTempExtent.
  now rewrite Hf, Hx, Hy, Hg.
Qed.

Lemma updateMatrix2_closure tempType h :
  same_closure2 h (RecentYearsHeatmap.updateMatrix tempType h)
  /\ RecentYearsHeatmap.legendScale (RecentYearsHeatmap.updateMatrix tempType h)
     = RecentYearsHeatmap.legendScale h.
Proof. repeat split. Qed.

Lemma updateLegend2_closure tempType h :
  same_closure2 h (RecentYearsHeatmap.updateLegend tempType h)
  /\ RecentYearsHeatmap.cells (RecentYearsHeatmap.updateLegend tempType h)
     = RecentYearsHeatmap.cells h.
Proof. repeat split. Qed.

Lemma updateMatrix2_first tempType h :
  RecentYearsHeatmap.cells h = [] ->
  RecentYearsHeatmap.cells (RecentYearsHeatmap.updateMatrix tempType h)
  = map (cell_of h tempType) (RecentYearsHeatmap.processedDailyData h).
Proof.
  intros E. unfold RecentYearsHeatmap.updateMatrix. rewrite E, bind_empty. simpl.
  rewrite map_map. reflexivity.
Qed.

Lemma updateMatrix2_again tempType h :
  NoDup (map RecentYearsHeatmap.key (RecentYearsHeatmap.processedDailyData h)) ->
  drawn2 h ->
  RecentYearsHeatmap.cells (RecentYearsHeatmap.updateMatrix tempType h)
  = map (cell_of h tempType) (RecentYearsHeatmap.processedDailyData h).
Proof.
  intros Hnd [f E]. unfold RecentYearsHeatmap.updateMatrix.
  rewrite E, bind_rendered by auto. simpl.
  rewrite app_nil_r, !map_map. reflexivity.
Qed.

Lemma updateMatrix2_drawn tempType h :
  NoDup (map RecentYearsHeatmap.key (RecentYearsHeatmap.processedDailyData h)) ->
  drawn2 h -> drawn2 (RecentYearsHeatmap.updateMatrix tempType h).
Proof.
  intros Hnd Hd. exists tempType.
  rewrite updateMatrix2_again by assumption.
  destruct (updateMatrix2_closure tempType h) as [Hc _].
  destruct Hc as [-> _]. apply map_ext. intros d.
  symmetry. apply cell_of_closure. apply updateMatrix2_closure.
Qed.

Lemma create2_closure (processedDailyData : list Bucket.t)
    (filteredData : list DailyRecord) :
  let h := createRecentYearsHeatmap processedDailyData filteredData in
  RecentYearsHeatmap.processedDailyData h = processedDailyData
  /\ RecentYearsHeatmap.filteredData h = filteredData
  /\ RecentYearsHeatmap.globalMiniExtent h
     = (d3.min filteredData (fun d => Some (min_temperature d)),
        d3.max filteredData (fun d => Some (max_temperature d)))
  /\ Scale.band_domain (RecentYearsHeatmap.xScale h)
     = array_sort (fun a b => a - b) (new_Set (map Bucket.year processedDailyData)).
Proof. repeat split. Qed.

Lemma create2_drawn (processedDailyData : list Bucket.t)
    (filteredData : list DailyRecord) :
  drawn2 (createRecentYearsHeatmap processedDailyData filteredData).
Proof.
  exists TMax. unfold createRecentYearsHeatmap, RecentYearsHeatmap.create.
  rewrite updateMatrix2_first by reflexivity.
  apply map_ext. intros d. symmetry. apply cell_of_closure.
  apply updateMatrix2_closure.
Qed.

Lemma run2_invariant (calls : list Call) : forall h,
  NoDup (map RecentYearsHeatmap.key (RecentYearsHeatmap.processedDailyData h)) ->
  drawn2 h ->
  same_closure2 h (RecentYearsHeatmap.run calls h)
  /\ drawn2 (RecentYearsHeatmap.run calls h).
Proof.
  induction calls as [|c calls IH]; intros h Hnd Hd; simpl.
  - split; [apply same_closure2_refl | assumption].
  - assert (same_closure2 h (RecentYearsHeatmap.call c h)
            /\ drawn2 (RecentYearsHeatmap.call c h)) as [Hc Hd'].
    { destruct c as [f | f]; simpl.
      - split; [apply updateMatrix2_closure | now apply updateMatrix2_drawn].
      - split; [apply updateLegend2_closure|].
        destruct Hd as [f0 E]. exists f0. exact E. }
    destruct (IH (RecentYearsHeatmap.call c h)) as [Hc' Hd''].
    + destruct Hc as [-> _]. assumption.
    + assumption.
    + split; [|assumption]. eapply same_closure2_trans; eassumption.
Qed.

(** ** The ten-year window *)

Lemma page_heatmap1 (data : list DailyRecord) :
  YearlyHeatmap.processedData (heatmap1 (initVisualizations data))
  = createAggregatedData data.
Proof. reflexivity. Qed.

Lemma page_filteredData (data : list DailyRecord) :
  RecentYearsHeatmap.filteredData (heatmap2 (initVisualizations data))
  = filter (in_window (d3.max data (fun d => Some (year_of d)))) data.
Proof. reflexivity. Qed.

Lemma page_processedDailyData (data : list DailyRecord) :
  RecentYearsHeatmap.processedDailyData (heatmap2 (initVisualizations data))
  = createDailyData
      (RecentYearsHeatmap.filteredData (heatmap2 (initVisualizations data))).
Proof. reflexivity. Qed.

Lemma window_filter (data : list DailyRecord) (Yn : Z) :
  is_max_of Yn (map year_of data) ->
  filter (in_window (d3.max data (fun d => Some (year_of d)))) data
  = filter (fun d => (Yn - 9 <=? year_of d) && (year_of d <=? Yn)) data.
Proof.
  intros Hmax. rewrite (proj2 (d3_max_is_max data year_of Yn) Hmax).
  apply filter_ext_in. intros d Hd. simpl.
  destruct Hmax as [_ Hle]. specialize (Hle _ (in_map year_of _ _ Hd)).
  destruct (Z.leb_spec (year_of d) Yn); [|lia]. now rewrite andb_true_r.
Qed.

Lemma filter_all {A} (p : A -> bool) (l : list A) :
  (forall a, In a l -> p a = true) -> filter p l = l.
Proof.
  induction l as [|a l IH]; intros H; simpl; [reflexivity|].
  rewrite (H a) by now left. f_equal. apply IH. intros b Hb. apply H. now right.
Qed.

Lemma new_Set_constant (xs : list Z) (c : Z) :
  xs <> [] -> (forall x, In x xs -> x = c) -> new_Set xs = [c].
Proof.
  intros Hne Hall.
  pose proof (new_Set_NoDup xs) as Hnd.
  assert (forall x, In x (new_Set xs) -> x = c) as Hc
    by (intros x Hx; apply Hall; now apply new_Set_In).
  assert (In c (new_Set xs)) as Hin.
  { apply new_Set_In. destruct xs as [|x xs]; [congruence|].
    left. apply Hall. now left. }
  destruct (new_Set xs) as [|a [|b l]].
  - contradiction.
  - f_equal. apply Hc. now left.
  - exfalso. inversion Hnd as [|? ? Ha _]; subst. apply Ha.
    rewrite (Hc a) by (now left). rewrite <- (Hc b) by (right; now left).
    now left.
Qed.

Lemma bucket_years (data : list DailyRecord) (b : Bucket.t) :
  In b (createDailyData data) ->
  exists d, In d data /\ year_of d = Bucket.year b /\ month_of d = Bucket.month b.
Proof.
  rewrite createDailyData_leaves.
  intros (([y m] & values) & <- & H)%in_map_iff. simpl.
  apply group_present. eauto.
Qed.

Lemma buckets_nonempty (data : list DailyRecord) :
  data <> [] -> createDailyData data <> [].
Proof.
  intros Hne E. destruct data as [|d data]; [congruence|].
  assert (exists values, In (year_of d, month_of d, values)
                            (leaves (d :: data) year_of month_of)) as [values H].
  { apply group_present. exists d. split; [now left | auto]. }
  rewrite createDailyData_leaves in E.
  destruct (leaves (d :: data) year_of month_of); [contradiction | discriminate].
Qed.

(** C3. When [Yn] is the largest year of the records, the records handed to
    the recent-years view (and from which its buckets are built) are exactly
    those with a year between [Yn - 9] and [Yn], both included, in their
    original order, while the aggregated view is built from the summaries of
    all the records.  If moreover every record is of year [Yn] (as for a
    dataset that only spans 2015), nothing is filtered out and the year axis
    of the recent-years view consists of that single year. *)
Theorem recent_years_window (data : list DailyRecord) (Yn : Z) :
  is_max_of Yn (map year_of data) ->
  let page := initVisualizations data in
  RecentYearsHeatmap.filteredData (heatmap2 page)
  = filter (fun d => (Yn - 9 <=? year_of d) && (year_of d <=? Yn)) data
  /\ RecentYearsHeatmap.processedDailyData (heatmap2 page)
     = createDailyData (RecentYearsHeatmap.filteredData (heatmap2 page))
  /\ YearlyHeatmap.processedData (heatmap1 page) = createAggregatedData data
  /\ ((forall d, In d data -> year_of d = Yn) ->
      RecentYearsHeatmap.filteredData (heatmap2 page) = data
      /\ Scale.band_domain (RecentYearsHeatmap.xScale (heatmap2 page)) = [Yn]).
Proof.
  intros Hmax page. subst page.
  rewrite page_processedDailyData, page_heatmap1, page_filteredData.
  rewrite (window_filter data Yn Hmax).
  split; [reflexivity|]. split; [reflexivity|]. split; [reflexivity|].
  intros Hall.
  assert (filter (fun d => (Yn - 9 <=? year_of d) && (year_of d <=? Yn)) data
          = data) as Hf.
  { apply filter_all. intros d Hd. rewrite (Hall d Hd).
    apply andb_true_iff. split; apply Z.leb_le; lia. }
  split; [exact Hf|].
  unfold initVisualizations. simpl heatmap2.
  rewrite (proj2 (d3_max_is_max data year_of Yn) Hmax).
  change (filter (in_window (Some Yn)) data)
    with (filter (fun d => (Yn - 9 <=? year_of d)) data).
  assert (filter (fun d => Yn - 9 <=? year_of d) data = data) as Hf'.
  { apply filter_all. intros d Hd. rewrite (Hall d Hd). apply Z.leb_le. lia. }
  rewrite Hf'.
  destruct (create2_closure (createDailyData data) data) as (_ & _ & _ & ->).
  assert (data <> []) as Hne.
  { destruct Hmax as [Hin _]. destruct data; [contradiction | discriminate]. }
  rewrite (new_Set_constant _ Yn).
  - reflexivity.
  - intros E. apply map_eq_nil in E. now apply buckets_nonempty in E.
  - intros y (b & <- & Hb)%in_map_iff.
    apply bucket_years in Hb. destruct Hb as (d & Hd & <- & _). auto.
Qed.

Lemma recent_years_window_witness :
  is_max_of 2015 (map year_of only_2015)
  /\ RecentYearsHeatmap.filteredData (heatmap2 (initVisualizations only_2015))
     = only_2015
  /\ Scale.band_domain
       (RecentYearsHeatmap.xScale (heatmap2 (initVisualizations only_2015)))
     = [2015].
Proof.
  assert (is_max_of 2015 (map year_of only_2015)) as Hmax.
  { vm_compute. split; [now left|]. intros x [<- | [<- | [<- | []]]]; discriminate. }
  assert (forall d, In d only_2015 -> year_of d = 2015) as Hall.
  { intros d [<- | [<- | [<- | []]]]; reflexivity. }
  split; [exact Hmax|].
  exact (proj2 (proj2 (proj2 (recent_years_window only_2015 2015 Hmax))) Hall).
Defined.

(** ** Extents over the summaries and over the records *)

Lemma summary_In (data : list DailyRecord) (s : Summary.t) :
  In s (createAggregatedData data) <->
  exists y m,
    (exists d, In d data /\ year_of d = y /\ month_of d = m)
    /\ s = Summary.mk y m
             (d3.max (filter (same_month y m) data)
                     (fun d => Some (max_temperature d)))
             (d3.min (filter (same_month y m) data)
                     (fun d => Some (min_temperature d))).
Proof.
  rewrite createAggregatedData_leaves, in_map_iff. split.
  - intros (([y m] & values) & <- & H). apply leaves_In in H.
    destruct H as [Hex ->]. exists y, m. split; [assumption | reflexivity].
  - intros (y & m & Hex & ->).
    exists (y, m, filter (same_month y m) data). split; [reflexivity|].
    apply leaves_In. split; [assumption | reflexivity].
Qed.

Lemma in_own_month (data : list DailyRecord) (d : DailyRecord) :
  In d data -> In d (filter (same_month (year_of d) (month_of d)) data).
Proof.
  intros Hd. apply filter_In. split; [assumption|].
  unfold same_month. now rewrite !Z.eqb_refl.
Qed.

Lemma summaries_max (data : list DailyRecord) :
  d3.max (createAggregatedData data) Summary.max
  = d3.max data (fun d => Some (max_temperature d)).
Proof.
  apply d3_max_char.
  pose proof (proj1 (d3_max_char data (fun d => Some (max_temperature d)) _)
                eq_refl) as H.
  destruct (d3.max data _) as [hi|].
  - destruct H as ((d & Hd & [= Ehi]) & Hall).
    assert (forall s x, In s (createAggregatedData data) ->
                        Summary.max s = Some x -> x <= hi) as Hup.
    { intros s x (y & m & _ & ->)%summary_In Hx. simpl in Hx.
      apply d3_max_char in Hx. destruct Hx as ((d' & Hd' & Ex) & _).
      apply filter_In in Hd'. apply (Hall d'); tauto. }
    split; [|exact Hup].
    pose proof (in_own_month data d Hd) as Hg.
    destruct (d3_max_defined (filter (same_month (year_of d) (month_of d)) data)
                max_temperature) as [hi' Ehi'].
    { intros E. rewrite E in Hg. contradiction. }
    exists (Summary.mk (year_of d) (month_of d)
              (d3.max (filter (same_month (year_of d) (month_of d)) data)
                      (fun d => Some (max_temperature d)))
              (d3.min (filter (same_month (year_of d) (month_of d)) data)
                      (fun d => Some (min_temperature d)))).
    assert (In (Summary.mk (year_of d) (month_of d)
              (d3.max (filter (same_month (year_of d) (month_of d)) data)
                      (fun d => Some (max_temperature d)))
              (d3.min (filter (same_month (year_of d) (month_of d)) data)
                      (fun d => Some (min_temperature d))))
               (createAggregatedData data)) as Hs.
    { apply summary_In. exists (year_of d), (month_of d). split; [eauto | reflexivity]. }
    split; [exact Hs|]. simpl. rewrite Ehi'. f_equal.
    specialize (Hup _ hi' Hs). simpl in Hup. specialize (Hup Ehi').
    apply d3_max_char in Ehi'. destruct Ehi' as (_ & Hge).
    specialize (Hge d _ Hg eq_refl). lia.
  - intros s (y & m & (d & Hd & _) & _)%summary_In.
    specialize (H d Hd). discriminate.
Qed.

Lemma summaries_min (data : list DailyRecord) :
  d3.min (createAggregatedData data) Summary.min
  = d3.min data (fun d => Some (min_temperature d)).
Proof.
  apply d3_min_char.
  pose proof (proj1 (d3_min_char data (fun d => Some (min_temperature d)) _)
                eq_refl) as H.
  destruct (d3.min data _) as [lo|].
  - destruct H as ((d & Hd & [= Elo]) & Hall).
    assert (forall s x, In s (createAggregatedData data) ->
                        Summary.min s = Some x -> lo <= x) as Hup.
    { intros s x (y & m & _ & ->)%summary_In Hx. simpl in Hx.
      apply d3_min_char in Hx. destruct Hx as ((d' & Hd' & Ex) & _).
      apply filter_In in Hd'. apply (Hall d'); tauto. }
    split; [|exact Hup].
    pose proof (in_own_month data d Hd) as Hg.
    destruct (d3_min_defined (filter (same_month (year_of d) (month_of d)) data)
                min_temperature) as [lo' Elo'].
    { intros E. rewrite E in Hg. contradiction. }
    exists (Summary.mk (year_of d) (month_of d)
              (d3.max (filter (same_month (year_of d) (month_of d)) data)
                      (fun d => Some (max_temperature d)))
              (d3.min (filter (same_month (year_of d) (month_of d)) data)
                      (fun d => Some (min_temperature d)))).
    assert (In (Summary.mk (year_of d) (month_of d)
              (d3.max (filter (same_month (year_of d) (month_of d)) data)
                      (fun d => Some (max_temperature d)))
              (d3.min (filter (same_month (year_of d) (month_of d)) data)
                      (fun d => Some (min_temperature d))))
               (createAggregatedData data)) as Hs.
    { apply summary_In. exists (year_of d), (month_of d). split; [eauto | reflexivity]. }
    split; [exact Hs|]. simpl. rewrite Elo'. f_equal.
    specialize (Hup _ lo' Hs). simpl in Hup. specialize (Hup Elo').
    apply d3_min_char in Elo'. destruct Elo' as (_ & Hge).
    specialize (Hge d _ Hg eq_refl). lia.
  - intros s (y & m & (d & Hd & _) & _)%summary_In.
    specialize (H d Hd). discriminate.
Qed.

(** C4. For a non-empty set of records, the minimum of the summaries' [min]
    and the maximum of the summaries' [max] (which is the domain
    [createYearlyHeatmap] gives its colour scale) are the minimum of
    [min_temperature] and the maximum of [max_temperature] over the records,
    as [d3.min] and [d3.max] compute them on the records directly. *)
Theorem extent_round_trip (data : list DailyRecord) :
  data <> [] ->
  let processedData := createAggregatedData data in
  exists lo hi,
    is_min_of lo (map min_temperature data)
    /\ is_max_of hi (map max_temperature data)
    /\ d3.min processedData Summary.min = Some lo
    /\ d3.max processedData Summary.max = Some hi
    /\ d3.min data (fun d => Some (min_temperature d)) = Some lo
    /\ d3.max data (fun d => Some (max_temperature d)) = Some hi
    /\ YearlyHeatmap.colorScale (createYearlyHeatmap processedData)
       = (Some lo, Some hi).
Proof.
  intros Hne processedData. subst processedData.
  destruct (d3_min_defined data min_temperature Hne) as [lo Hlo].
  destruct (d3_max_defined data max_temperature Hne) as [hi Hhi].
  exists lo, hi.
  destruct (create1_closure (createAggregatedData data)) as (_ & -> & _).
  rewrite summaries_min, summaries_max, Hlo, Hhi.
  split; [now apply d3_min_is_min|]. split; [now apply d3_max_is_max|].
  repeat split.
Qed.

Lemma extent_round_trip_witness :
  scenario <> []
  /\ exists lo hi,
       is_min_of lo (map min_temperature scenario)
       /\ is_max_of hi (map max_temperature scenario)
       /\ d3.min (createAggregatedData scenario) Summary.min = Some lo
       /\ d3.max (createAggregatedData scenario) Summary.max = Some hi
       /\ d3.min scenario (fun d => Some (min_temperature d)) = Some lo
       /\ d3.max scenario (fun d => Some (max_temperature d)) = Some hi
       /\ YearlyHeatmap.colorScale
            (createYearlyHeatmap (createAggregatedData scenario))
          = (Some lo, Some hi).
Proof.
  assert (scenario <> []) as Hne by discriminate.
  split; [exact Hne | exact (extent_round_trip scenario Hne)].
Defined.

(** ** The two views agree on a cell's aggregate *)

Lemma bucket_In (data : list DailyRecord) (b : Bucket.t) :
  In b (createDailyData data) <->
  exists y m,
    (exists d, In d data /\ year_of d = y /\ month_of d = m)
    /\ b = Bucket.mk y m
             (array_sort
                (fun a b => d3.ascending (getTime (date a)) (getTime (date b)))
                (filter (same_month y m) data)).
Proof.
  rewrite createDailyData_leaves, in_map_iff. split.
  - intros (([y m] & values) & <- & H). apply leaves_In in H.
    destruct H as [Hex ->]. exists y, m. split; [assumption | reflexivity].
  - intros (y & m & Hex & ->).
    exists (y, m, filter (same_month y m) data). split; [reflexivity|].
    apply leaves_In. split; [assumption | reflexivity].
Qed.

Lemma array_sort_In {A} (compare : A -> A -> Z) (l : list A) (a : A) :
  In a (array_sort compare l) <-> In a l.
Proof.
  split; apply Permutation_in;
    [|symmetry]; apply array_sort_Permutation.
Qed.

(** A month that reaches the window is in it with all its records. *)
Lemma windowed_month (data : list DailyRecord) (maxYear : option Z) (y m : Z) :
  (exists d, In d (filter (in_window maxYear) data)
             /\ year_of d = y /\ month_of d = m) ->
  forall a,
    In a (array_sort
            (fun a b => d3.ascending (getTime (date a)) (getTime (date b)))
            (filter (same_month y m) (filter (in_window maxYear) data)))
    <-> In a (filter (same_month y m) data).
Proof.
  intros (d & Hd & Hy & Hm) a.
  rewrite array_sort_In, !filter_In. apply filter_In in Hd.
  destruct Hd as [Hd Hw]. split; [tauto|].
  intros [Ha Hs]. split; [|assumption]. split; [assumption|].
  unfold same_month in Hs. apply andb_true_iff in Hs.
  destruct Hs as [Hya%Z.eqb_eq _].
  unfold in_window in *. destruct maxYear; [|discriminate]. congruence.
Qed.

(** C10. For every bucket of the recent-years view, [createAggregatedData]
    applied to all the records has a summary of the same year and month, and
    for each summary of that year and month the value the recent-years view
    colours the cell by (the maximum of [max_temperature] over the bucket's
    days, respectively the minimum of [min_temperature]) is the summary's
    [max], respectively [min]. *)
Theorem cell_aggregates_agree (data : list DailyRecord) (b : Bucket.t) :
  let page := initVisualizations data in
  In b (RecentYearsHeatmap.processedDailyData (heatmap2 page)) ->
  (exists s, In s (YearlyHeatmap.processedData (heatmap1 page))
             /\ Summary.year s = Bucket.year b
             /\ Summary.month s = Bucket.month b)
  /\ (forall s, In s (YearlyHeatmap.processedData (heatmap1 page)) ->
                Summary.year s = Bucket.year b ->
                Summary.month s = Bucket.month b ->
                RecentYearsHeatmap.aggVal TMax b = Summary.max s
                /\ RecentYearsHeatmap.aggVal TMin b = Summary.min s).
Proof.
  intros page. subst page.
  rewrite page_processedDailyData, page_heatmap1, page_filteredData.
  intros (y & m & Hex & ->)%bucket_In. simpl Bucket.year. simpl Bucket.month.
  pose proof (windowed_month data _ y m Hex) as Hsame.
  destruct Hex as (d & Hd & Hy & Hm). apply filter_In in Hd. destruct Hd as [Hd _].
  split.
  - eexists. split; [apply summary_In; exists y, m; split; [eauto | reflexivity]|].
    simpl. auto.
  - intros s (y' & m' & _ & ->)%summary_In. simpl. intros -> ->.
    split.
    + now apply d3_max_same_elements.
    + now apply d3_min_same_elements.
Qed.

Lemma cell_aggregates_agree_witness :
  In february_2020
     (RecentYearsHeatmap.processedDailyData
        (heatmap2 (initVisualizations scenario)))
  /\ RecentYearsHeatmap.aggVal TMax february_2020 = Some 5
  /\ RecentYearsHeatmap.aggVal TMin february_2020 = Some (-5).
Proof.
  assert (In february_2020
             (RecentYearsHeatmap.processedDailyData
                (heatmap2 (initVisualizations scenario)))) as Hb.
  { vm_compute. right. left. reflexivity. }
  split; [exact Hb|].
  assert (In (Summary.mk 2020 2 (Some 5) (Some (-5)))
             (YearlyHeatmap.processedData
                (heatmap1 (initVisualizations scenario)))) as Hs.
  { vm_compute. right. left. reflexivity. }
  exact (proj2 (cell_aggregates_agree scenario february_2020 Hb) _ Hs
           eq_refl eq_refl).
Defined.

(** ** Every call leaves the view drawn from its own data *)

Lemma page_heatmap2_reached (data : list DailyRecord) (calls : list Call) :
  let h0 := heatmap2 (initVisualizations data) in
  let h := RecentYearsHeatmap.run calls h0 in
  same_closure2 h0 h /\ drawn2 h
  /\ NoDup (map RecentYearsHeatmap.key (RecentYearsHeatmap.processedDailyData h)).
Proof.
  intros h0 h.
  assert (NoDup (map RecentYearsHeatmap.key
                   (RecentYearsHeatmap.processedDailyData h0))) as Hnd
    by apply buckets_NoDup.
  destruct (run2_invariant calls h0 Hnd) as [Hc Hd].
  { apply create2_drawn. }
  split; [exact Hc|]. split; [exact Hd|].
  destruct Hc as [Hp _]. fold h in Hp. rewrite Hp. exact Hnd.
Qed.

Lemma page_heatmap1_reached (data : list DailyRecord) (calls : list Call) :
  let h0 := heatmap1 (initVisualizations data) in
  let h := YearlyHeatmap.run calls h0 in
  same_closure1 h0 h /\ drawn1 h
  /\ NoDup (map YearlyHeatmap.key (YearlyHeatmap.processedData h)).
Proof.
  intros h0 h.
  assert (NoDup (map YearlyHeatmap.key (YearlyHeatmap.processedData h0))) as Hnd
    by apply summaries_NoDup.
  destruct (run1_invariant calls h0 Hnd) as [Hc Hd].
  { apply create1_drawn. }
  split; [exact Hc|]. split; [exact Hd|].
  destruct Hc as [Hp _]. fold h in Hp. rewrite Hp. exact Hnd.
Qed.

Lemma updateMatrix2_cells (data : list DailyRecord) (calls : list Call)
    (tempType : TempType) :
  let h0 := heatmap2 (initVisualizations data) in
  RecentYearsHeatmap.cells
    (RecentYearsHeatmap.updateMatrix tempType (RecentYearsHeatmap.run calls h0))
  = map (cell_of h0 tempType) (RecentYearsHeatmap.processedDailyData h0).
Proof.
  intros h0.
  destruct (page_heatmap2_reached data calls) as (Hc & Hd & Hnd).
  fold h0 in Hc, Hd, Hnd.
  rewrite updateMatrix2_again by assumption.
  pose proof Hc as [-> _]. apply map_ext. intros d. now apply cell_of_closure.
Qed.

Lemma updateMatrix1_matrix (data : list DailyRecord) (calls : list Call)
    (tempType : TempType) :
  let h0 := heatmap1 (initVisualizations data) in
  YearlyHeatmap.matrix
    (YearlyHeatmap.updateMatrix tempType (YearlyHeatmap.run calls h0))
  = map (rect_of h0 tempType) (YearlyHeatmap.processedData h0).
Proof.
  intros h0.
  destruct (page_heatmap1_reached data calls) as (Hc & Hd & Hnd).
  fold h0 in Hc, Hd, Hnd.
  rewrite updateMatrix1_again by assumption.
  pose proof Hc as [-> _]. apply map_ext. intros d. now apply rect_of_closure.
Qed.

(** C6. Whatever calls came before, [updateMatrix(field)] of the recent-years
    view builds its colour scale on the extent of the field's temperature
    column over the windowed records, that is on the pair of its minimum and
    its maximum, computed at that call; afterwards there is one cell per
    bucket, in the buckets' order, and the background fill of a cell is the
    colour that scale gives to the maximum of [max_temperature] over the
    cell's days when the field is max, and to the minimum of
    [min_temperature] over them when it is min. *)
Theorem recent_years_updateMatrix_fill (data : list DailyRecord)
    (calls : list Call) (tempType : TempType) :
  let h0 := heatmap2 (initVisualizations data) in
  let h := RecentYearsHeatmap.run calls h0 in
  let windowed := RecentYearsHeatmap.filteredData h0 in
  let column :=
    match tempType with TMax => max_temperature | TMin => min_temperature end in
  let colorDomain := d3.extent windowed (fun d => Some (column d)) in
  RecentYearsHeatmap.getGlobalTempExtent h tempType = colorDomain
  /\ colorDomain = (d3.min windowed (fun d => Some (column d)),
                    d3.max windowed (fun d => Some (column d)))
  /\ map RecentYearsHeatmap.datum
         (RecentYearsHeatmap.cells (RecentYearsHeatmap.updateMatrix tempType h))
     = RecentYearsHeatmap.processedDailyData h0
  /\ Forall
       (fun c =>
          RecentYearsHeatmap.bg_fill c
          = Scale.sequential colorDomain
              match tempType with
              | TMax => d3.max (Bucket.days (RecentYearsHeatmap.datum c))
                               (fun day => Some (max_temperature day))
              | TMin => d3.min (Bucket.days (RecentYearsHeatmap.datum c))
                               (fun day => Some (min_temperature day))
              end)
       (RecentYearsHeatmap.cells (RecentYearsHeatmap.updateMatrix tempType h)).
Proof.
  intros h0 h windowed column colorDomain.
  destruct (page_heatmap2_reached data calls) as ((_ & Hf & _) & _).
  fold h0 h in Hf.
  assert (RecentYearsHeatmap.getGlobalTempExtent h tempType = colorDomain) as Hdom.
  { unfold RecentYearsHeatmap.getGlobalTempExtent. rewrite Hf.
    subst colorDomain column. destruct tempType; reflexivity. }
  split; [exact Hdom|]. split; [apply d3_extent_min_max|].
  unfold h, h0. rewrite updateMatrix2_cells. fold h0. split.
  - rewrite map_map. simpl. apply map_id.
  - apply Forall_forall. intros c (d & <- & Hd)%in_map_iff. simpl.
    subst colorDomain column windowed. destruct tempType; reflexivity.
Qed.

(** C7. Whatever calls came before and whatever the field, after
    [updateMatrix] there is one cell for each bucket, in the buckets' order,
    and the two paths of every cell are drawn with a horizontal scale of
    domain [1, number of days of the cell] onto the cell's width and a
    vertical scale whose domain is the pair (minimum of [min_temperature],
    maximum of [max_temperature]) over the windowed records, onto the cell's
    height; that pair is the closure's [globalMiniExtent], which no call
    changes, so it is the same for all cells and all fields. *)
Theorem mini_line_scales (data : list DailyRecord) (calls : list Call)
    (tempType : TempType) :
  let h0 := heatmap2 (initVisualizations data) in
  let h := RecentYearsHeatmap.updateMatrix tempType
             (RecentYearsHeatmap.run calls h0) in
  let windowed := RecentYearsHeatmap.filteredData h0 in
  let yDomain :=
    (d3.min windowed (fun d => Some (min_temperature d)),
     d3.max windowed (fun d => Some (max_temperature d))) in
  let cellWidth := Scale.bandwidth (RecentYearsHeatmap.xScale h0) in
  let cellHeight := Scale.bandwidth (RecentYearsHeatmap.yScale h0) in
  RecentYearsHeatmap.globalMiniExtent h = yDomain
  /\ map RecentYearsHeatmap.datum (RecentYearsHeatmap.cells h)
     = RecentYearsHeatmap.processedDailyData h0
  /\ Forall
       (fun c =>
          let days := Bucket.days (RecentYearsHeatmap.datum c) in
          let xMini :=
            Scale.linear (Some 1, Some (Z.of_nat (length days)))
                         (0%Q, cellWidth) in
          let yMini := Scale.linear yDomain (cellHeight, 0%Q) in
          RecentYearsHeatmap.mini_line_max c
          = mapi (fun day i =>
                    (xMini (Z.of_nat i + 1), yMini (max_temperature day))) days
          /\ RecentYearsHeatmap.mini_line_min c
             = mapi (fun day i =>
                       (xMini (Z.of_nat i + 1), yMini (min_temperature day))) days)
       (RecentYearsHeatmap.cells h).
Proof.
  intros h0 h windowed yDomain cellWidth cellHeight.
  destruct (page_heatmap2_reached data calls) as ((_ & _ & _ & _ & Hg) & _).
  split.
  - unfold h.
    destruct (updateMatrix2_closure tempType
                (RecentYearsHeatmap.run calls h0)) as ((_ & _ & _ & _ & ->) & _).
    fold h0 in Hg. rewrite Hg. reflexivity.
  - unfold h, h0. rewrite updateMatrix2_cells. fold h0. split.
    + rewrite map_map. simpl. apply map_id.
    + apply Forall_forall. intros c (d & <- & Hd)%in_map_iff. simpl.
      split; reflexivity.
Qed.

(** ** Re-rendering *)

Lemma updateMatrix1_eq tempType h :
  NoDup (map YearlyHeatmap.key (YearlyHeatmap.processedData h)) ->
  drawn1 h ->
  YearlyHeatmap.updateMatrix tempType h
  = YearlyHeatmap.mk (YearlyHeatmap.processedData h) (YearlyHeatmap.xScale h)
      (YearlyHeatmap.yScale h) (YearlyHeatmap.colorScale h)
      (YearlyHeatmap.legendScale h)
      (map (rect_of h tempType) (YearlyHeatmap.processedData h)).
Proof.
  intros Hnd Hd. rewrite <- (updateMatrix1_again tempType h Hnd Hd).
  reflexivity.
Qed.

Lemma updateMatrix2_eq tempType h :
  NoDup (map RecentYearsHeatmap.key (RecentYearsHeatmap.processedDailyData h)) ->
  drawn2 h ->
  RecentYearsHeatmap.updateMatrix tempType h
  = RecentYearsHeatmap.mk (RecentYearsHeatmap.processedDailyData h)
      (RecentYearsHeatmap.filteredData h) (RecentYearsHeatmap.xScale h)
      (RecentYearsHeatmap.yScale h) (RecentYearsHeatmap.globalMiniExtent h)
      (RecentYearsHeatmap.legendScale h)
      (map (cell_of h tempType) (RecentYearsHeatmap.processedDailyData h)).
Proof.
  intros Hnd Hd. rewrite <- (updateMatrix2_again tempType h Hnd Hd).
  reflexivity.
Qed.

Lemma updateMatrix1_twice tempType h :
  NoDup (map YearlyHeatmap.key (YearlyHeatmap.processedData h)) ->
  drawn1 h ->
  YearlyHeatmap.updateMatrix tempType (YearlyHeatmap.updateMatrix tempType h)
  = YearlyHeatmap.updateMatrix tempType h.
Proof.
  intros Hnd Hd.
  rewrite (updateMatrix1_eq tempType (YearlyHeatmap.updateMatrix tempType h)).
  - rewrite (updateMatrix1_eq tempType h Hnd Hd). reflexivity.
  - exact Hnd.
  - now apply updateMatrix1_drawn.
Qed.

Lemma updateMatrix2_twice tempType h :
  NoDup (map RecentYearsHeatmap.key (RecentYearsHeatmap.processedDailyData h)) ->
  drawn2 h ->
  RecentYearsHeatmap.updateMatrix tempType
    (RecentYearsHeatmap.updateMatrix tempType h)
  = RecentYearsHeatmap.updateMatrix tempType h.
Proof.
  intros Hnd Hd.
  rewrite (updateMatrix2_eq tempType (RecentYearsHeatmap.updateMatrix tempType h)).
  - rewrite (updateMatrix2_eq tempType h Hnd Hd). reflexivity.
  - exact Hnd.
  - now apply updateMatrix2_drawn.
Qed.

(** C9. In either view and after any earlier calls, calling
    [updateMatrix(field)] a second time changes nothing: the state after two
    calls is the state after one.  The drawing after a call is the one
    obtained from the view's data and the field alone (each datum drawn once,
    with the fill and the paths computed from it), whatever was drawn before,
    and the call leaves the summaries, the buckets and the windowed records as
    [initVisualizations] computed them. *)
Theorem updateMatrix_idempotent (data : list DailyRecord)
    (calls1 calls2 : list Call) (tempType : TempType) :
  let page := initVisualizations data in
  let h1 := YearlyHeatmap.run calls1 (heatmap1 page) in
  let h2 := RecentYearsHeatmap.run calls2 (heatmap2 page) in
  YearlyHeatmap.updateMatrix tempType (YearlyHeatmap.updateMatrix tempType h1)
  = YearlyHeatmap.updateMatrix tempType h1
  /\ RecentYearsHeatmap.updateMatrix tempType
       (RecentYearsHeatmap.updateMatrix tempType h2)
     = RecentYearsHeatmap.updateMatrix tempType h2
  /\ YearlyHeatmap.matrix (YearlyHeatmap.updateMatrix tempType h1)
     = map (rect_of (heatmap1 page) tempType) (createAggregatedData data)
  /\ RecentYearsHeatmap.cells (RecentYearsHeatmap.updateMatrix tempType h2)
     = map (cell_of (heatmap2 page) tempType)
           (RecentYearsHeatmap.processedDailyData (heatmap2 page))
  /\ YearlyHeatmap.processedData (YearlyHeatmap.updateMatrix tempType h1)
     = createAggregatedData data
  /\ RecentYearsHeatmap.processedDailyData
       (RecentYearsHeatmap.updateMatrix tempType h2)
     = RecentYearsHeatmap.processedDailyData (heatmap2 page)
  /\ RecentYearsHeatmap.filteredData
       (RecentYearsHeatmap.updateMatrix tempType h2)
     = RecentYearsHeatmap.filteredData (heatmap2 page).
Proof.
  intros page h1 h2.
  destruct (page_heatmap1_reached data calls1) as (Hc1 & Hd1 & Hnd1).
  destruct (page_heatmap2_reached data calls2) as (Hc2 & Hd2 & Hnd2).
  fold page in Hc1, Hd1, Hnd1, Hc2, Hd2, Hnd2.
  fold h1 in Hc1, Hd1, Hnd1. fold h2 in Hc2, Hd2, Hnd2.
  split; [now apply updateMatrix1_twice|].
  split; [now apply updateMatrix2_twice|].
  split; [apply (updateMatrix1_matrix data calls1 tempType)|].
  split; [apply (updateMatrix2_cells data calls2 tempType)|].
  destruct Hc1 as (Hp1 & _). destruct Hc2 as (Hp2 & Hf2 & _).
  split; [exact Hp1|]. split; [exact Hp2 | exact Hf2].
Qed.

(** ** The colour scale and the legend of the aggregated view *)

Lemma run1_colorScale (data : list DailyRecord) (calls : list Call) :
  let pd := createAggregatedData data in
  YearlyHeatmap.colorScale
    (YearlyHeatmap.run calls (heatmap1 (initVisualizations data)))
  = (d3.min pd Summary.min, d3.max pd Summary.max).
Proof.
  intros pd. destruct (page_heatmap1_reached data calls) as ((_ & _ & _ & ->) & _).
  reflexivity.
Qed.

Lemma run1_processedData (data : list DailyRecord) (calls : list Call) :
  YearlyHeatmap.processedData
    (YearlyHeatmap.run calls (heatmap1 (initVisualizations data)))
  = createAggregatedData data.
Proof.
  destruct (page_heatmap1_reached data calls) as ((-> & _) & _). reflexivity.
Qed.

(** C5, as stated, fails: on [flat_months] the user selects min and then max
    again; after either toggle the legend scale's domain is the colour scale's
    domain, both being [0, 10]. *)
Lemma legend_domain_need_not_differ :
  YearlyHeatmap.legendScale
    (heatmap1 (change TMin (initVisualizations flat_months)))
  = YearlyHeatmap.colorScale
      (heatmap1 (change TMin (initVisualizations flat_months)))
  /\ YearlyHeatmap.legendScale
       (heatmap1 (change TMax (change TMin (initVisualizations flat_months))))
     = YearlyHeatmap.colorScale
         (heatmap1 (change TMax (change TMin (initVisualizations flat_months))))
  /\ YearlyHeatmap.colorScale
       (heatmap1 (change TMax (change TMin (initVisualizations flat_months))))
     = (Some 0, Some 10).
Proof. vm_compute. repeat split. Qed.

(** C5, amended. In the aggregated view the colour scale's domain is, after
    any sequence of [updateMatrix] and [updateLegend] calls, the pair (minimum
    of the summaries' [min], maximum of the summaries' [max]) set at
    construction from the summaries of all the records; a further call of
    either kind leaves it unchanged.  [updateLegend(field)] sets the legend
    scale's domain to the extent of the field over the summaries.  The two
    domains then differ exactly when that extent is not the colour domain:
    for max, when the least monthly [max] is not the least monthly [min]; for
    min, when the greatest monthly [min] is not the greatest monthly [max]. *)
Theorem color_domain_fixed_legend_follows (data : list DailyRecord)
    (calls : list Call) (tempType : TempType) :
  let pd := createAggregatedData data in
  let h := YearlyHeatmap.run calls (heatmap1 (initVisualizations data)) in
  let legend := YearlyHeatmap.legendScale (YearlyHeatmap.updateLegend tempType h) in
  let color := YearlyHeatmap.colorScale (YearlyHeatmap.updateLegend tempType h) in
  YearlyHeatmap.colorScale h = (d3.min pd Summary.min, d3.max pd Summary.max)
  /\ YearlyHeatmap.colorScale (YearlyHeatmap.updateMatrix tempType h)
     = YearlyHeatmap.colorScale h
  /\ color = YearlyHeatmap.colorScale h
  /\ legend = d3.extent pd (YearlyHeatmap.field tempType)
  /\ legend = (d3.min pd (YearlyHeatmap.field tempType),
               d3.max pd (YearlyHeatmap.field tempType))
  /\ (legend <> color <->
      match tempType with
      | TMax => d3.min pd Summary.max <> d3.min pd Summary.min
      | TMin => d3.max pd Summary.min <> d3.max pd Summary.max
      end).
Proof.
  intros pd h legend color.
  pose proof (run1_colorScale data calls) as Hc. fold pd h in Hc.
  pose proof (run1_processedData data calls) as Hp. fold pd h in Hp.
  assert (legend = d3.extent pd (YearlyHeatmap.field tempType)) as Hl.
  { subst legend. simpl. unfold YearlyHeatmap.getExtent. rewrite Hp.
    destruct tempType; reflexivity. }
  split; [exact Hc|]. split; [reflexivity|]. split; [reflexivity|].
  split; [exact Hl|].
  rewrite d3_extent_min_max in Hl. split; [exact Hl|].
  subst color. simpl. rewrite Hl, Hc.
  destruct tempType; simpl; split.
  - intros Hne E. apply Hne. f_equal. exact E.
  - intros Hne [= E]. apply Hne. exact E.
  - intros Hne E. apply Hne. f_equal. exact E.
  - intros Hne [= E]. apply Hne. exact E.
Qed.

(** ** Hovering a cell of the recent-years view *)



Lemma array_get_absent {A} (l : list A) (i : Z) :
  ~ (0 <= i < Z.of_nat (length l)) -> array_get l (Some i) = None.
Proof.
  intros Hi. unfold array_get.
  destruct (Z.ltb_spec i 0); [reflexivity|].
  apply nth_error_None. lia.
Qed.

(** [mouseover] on a present day shows that day. *)
Lemma mouseover_present h d event tooltip day :
  RecentYearsHeatmap.dayData h d event = Some day ->
  RecentYearsHeatmap.mouseover h d event tooltip
  = Tooltip.mk true
      (Some (DayText (date day) (max_temperature day) (min_temperature day)))
      (Tooltip.left tooltip) (Tooltip.top tooltip).
Proof. intros E. unfold RecentYearsHeatmap.mouseover. now rewrite E. Qed.

(** On an absent day neither handler touches the tooltip. *)
Lemma hover_absent h d event tooltip :
  RecentYearsHeatmap.dayData h d event = None ->
  RecentYearsHeatmap.mouseover h d event tooltip = tooltip
  /\ RecentYearsHeatmap.mousemove h d event tooltip = tooltip.
Proof.
  intros E. unfold RecentYearsHeatmap.mouseover, RecentYearsHeatmap.mousemove.
  now rewrite E.
Qed.

(** [mousemove] never writes the tooltip's text. *)
Lemma mousemove_html h d event tooltip :
  Tooltip.html (RecentYearsHeatmap.mousemove h d event tooltip)
  = Tooltip.html tooltip.
Proof.
  unfold RecentYearsHeatmap.mousemove.
  destruct (RecentYearsHeatmap.dayData h d event); reflexivity.
Qed.

(** C8 on the code: the pointer enters the January 2020 cell of the scenario
    over its first day and moves over its second day.  The index computed by
    [mousemove] is 1 and that day is present, yet the tooltip, displayed and
    moved to the pointer, still shows the first day. *)
Theorem mousemove_keeps_stale_day :
  RecentYearsHeatmap.dayIndex (heatmap2 (initVisualizations scenario))
    january_2020 pointer_on_day_2 = Some 1
  /\ RecentYearsHeatmap.dayData (heatmap2 (initVisualizations scenario))
       january_2020 pointer_on_day_2
     = Some (row 2020 1 20 15 (-1))
  /\ RecentYearsHeatmap.hover (heatmap2 (initVisualizations scenario))
       (Mousemove january_2020 pointer_on_day_2)
       (RecentYearsHeatmap.hover (heatmap2 (initVisualizations scenario))
          (Mouseover january_2020 pointer_on_day_1) Tooltip.initial)
     = Tooltip.mk true (Some (DayText (parseDate 2020 1 15) 10 2))
         (Some 610) (Some 90).
Proof. vm_compute. repeat split. Qed.

(* ================================================================== *)
(** * Further properties of the aggregator *)
(* ================================================================== *)

(** X1. When every record has its minimum at most its maximum, so has every
    Monthly Summary, and both fields are defined. *)
Theorem summaries_min_le_max (data : list DailyRecord) :
  (forall d, In d data -> min_temperature d <= max_temperature d) ->
  forall s, In s (createAggregatedData data) ->
    exists lo hi,
      Summary.min s = Some lo /\ Summary.max s = Some hi /\ lo <= hi.
Proof.
  intros Hwf s (y & m & Hex & ->)%summary_In. simpl.
  pose proof (group_nonempty data y m Hex) as Hne.
  destruct (d3_min_defined _ min_temperature Hne) as [lo Hlo].
  destruct (d3_max_defined _ max_temperature Hne) as [hi Hhi].
  exists lo, hi. split; [assumption|]. split; [assumption|].
  apply d3_min_char in Hlo. apply d3_max_char in Hhi.
  destruct Hlo as ((a & Ha & [= Ea]) & _). destruct Hhi as (_ & Hall).
  specialize (Hall a _ Ha eq_refl).
  apply filter_In in Ha. destruct Ha as [Ha _]. specialize (Hwf a Ha). lia.
Qed.

Lemma summaries_min_le_max_witness :
  (forall d, In d scenario -> min_temperature d <= max_temperature d)
  /\ exists lo hi,
       Summary.min (Summary.mk 2020 1 (Some 15) (Some (-1))) = Some lo
       /\ Summary.max (Summary.mk 2020 1 (Some 15) (Some (-1))) = Some hi
       /\ lo <= hi.
Proof.
  assert (forall d, In d scenario -> min_temperature d <= max_temperature d) as Hwf.
  { intros d [<- | [<- | [<- | []]]]; vm_compute; discriminate. }
  split; [exact Hwf|].
  apply (summaries_min_le_max scenario Hwf).
  vm_compute. left. reflexivity.
Defined.

(** X2. The two aggregations of the same records list the same (year, month)
    pairs in the same order, and either is empty exactly when there is no
    record. *)
Theorem aggregations_same_keys (data : list DailyRecord) :
  map YearlyHeatmap.key (createAggregatedData data)
  = map RecentYearsHeatmap.key (createDailyData data)
  /\ (createAggregatedData data = [] <-> data = [])
  /\ (createDailyData data = [] <-> data = []).
Proof.
  rewrite createAggregatedData_leaves, createDailyData_leaves.
  split; [|split].
  - rewrite !map_map. apply map_ext. intros [[y m] values]. reflexivity.
  - split.
    + intros E. destruct data as [|d data]; [reflexivity|]. exfalso.
      assert (exists values, In (year_of d, month_of d, values)
                                (leaves (d :: data) year_of month_of)) as [v H].
      { apply group_present. exists d. split; [now left | auto]. }
      apply map_eq_nil in E. rewrite E in H. contradiction.
    + intros ->. reflexivity.
  - split.
    + intros E. destruct data as [|d data]; [reflexivity|]. exfalso.
      assert (exists values, In (year_of d, month_of d, values)
                                (leaves (d :: data) year_of month_of)) as [v H].
      { apply group_present. exists d. split; [now left | auto]. }
      apply map_eq_nil in E. rewrite E in H. contradiction.
    + intros ->. reflexivity.
Qed.

(** Grouping keeps every value exactly once. *)
Lemma flat_map_Permutation_ext {A B} (f g : A -> list B) (l : list A) :
  (forall a, In a l -> Permutation (f a) (g a)) ->
  Permutation (flat_map f l) (flat_map g l).
Proof.
  induction l as [|a l IH]; intros H; simpl; [constructor|].
  apply Permutation_app; [apply H; now left | apply IH; intros; apply H; now right].
Qed.

Lemma flat_map_ext_In {A B} (f g : A -> list B) (l : list A) :
  (forall a, In a l -> f a = g a) -> flat_map f l = flat_map g l.
Proof.
  induction l as [|a l IH]; intros H; simpl; [reflexivity|].
  rewrite (H a) by now left. f_equal. apply IH. intros; apply H; now right.
Qed.

Lemma members_partition {A} (keyof : A -> Z) (values : list A) :
  forall S, NoDup S -> (forall v, In v values -> In (keyof v) S) ->
  Permutation (flat_map (members keyof values) S) values.
Proof.
  induction values as [|x values IH]; intros S Hnd Hin.
  - induction S as [|k S IHS]; simpl; [constructor|].
    apply IHS; [now inversion Hnd | intros v []].
  - assert (Permutation (flat_map (members keyof (x :: values)) S)
                        (x :: flat_map (members keyof values) S)) as Hx.
    { assert (In (keyof x) S) as Hk by (apply Hin; now left).
      clear IH Hin. induction Hnd as [|k S Hk' Hnd IHS]; [contradiction|].
      simpl. unfold members at 1. simpl.
      destruct (Z.eqb_spec (keyof x) k) as [E | Hne].
      - simpl. constructor. apply Permutation_app_head.
        apply Permutation_refl'. apply flat_map_ext_In. intros k' Hk''.
        unfold members. simpl.
        destruct (Z.eqb_spec (keyof x) k'); [congruence | reflexivity].
      - destruct Hk as [E | Hk]; [congruence|].
        fold (members keyof values k).
        rewrite (IHS Hk). symmetry. apply Permutation_middle. }
    rewrite Hx. constructor. apply IH; [assumption|].
    intros v Hv. apply Hin. now right.
Qed.

Lemma group_partition {A} (values : list A) (keyof : A -> Z) :
  Permutation (flat_map snd (d3.group values keyof)) values.
Proof.
  rewrite group_closed, flat_map_concat_map, map_map. simpl.
  rewrite <- flat_map_concat_map.
  apply members_partition; [apply new_Set_NoDup|].
  intros v Hv. apply new_Set_In. now apply in_map.
Qed.

Lemma leaves_partition {A} (values : list A) (key1 key2 : A -> Z) :
  Permutation (flat_map (fun leaf => snd leaf) (leaves values key1 key2)) values.
Proof.
  transitivity (flat_map snd (d3.group values key1)); [|apply group_partition].
  unfold leaves.
  induction (d3.group values key1) as [|[k1 v1] g IH]; simpl; [constructor|].
  rewrite flat_map_app. apply Permutation_app; [|exact IH].
  rewrite flat_map_concat_map, map_map.
  erewrite map_ext; [rewrite <- flat_map_concat_map; apply group_partition|].
  intros [k2 v2]. reflexivity.
Qed.

(** X3. Taken together, the buckets hold every input record exactly once:
    their days, concatenated, are a rearrangement of the input, so there are
    as many days as records. *)
Theorem buckets_partition (data : list DailyRecord) :
  Permutation (flat_map Bucket.days (createDailyData data)) data
  /\ length (flat_map Bucket.days (createDailyData data)) = length data.
Proof.
  assert (Permutation (flat_map Bucket.days (createDailyData data)) data) as H.
  { rewrite createDailyData_leaves, flat_map_concat_map, map_map.
    rewrite <- flat_map_concat_map.
    rewrite <- (leaves_partition data year_of month_of) at 2.
    apply flat_map_Permutation_ext. intros [[y m] values] _. simpl.
    apply array_sort_Permutation. }
  split; [exact H | now apply Permutation_length].
Qed.

Lemma sort_insert_at_time {A} (time : A -> Z) (t : Z) (x : A) (l : list A) :
  filter (fun a => time a =? t)
         (sort_insert (fun a b => d3.ascending (time a) (time b)) x l)
  = if time x =? t then x :: filter (fun a => time a =? t) l
    else filter (fun a => time a =? t) l.
Proof.
  induction l as [|y l IH]; simpl.
  - destruct (time x =? t); reflexivity.
  - rewrite ascending_le. destruct (Z.leb_spec (time x) (time y)) as [Hle | Hgt].
    + simpl. destruct (time x =? t); reflexivity.
    + simpl. rewrite IH.
      destruct (Z.eqb_spec (time y) t) as [Ey | Ny];
        destruct (Z.eqb_spec (time x) t) as [Ex | Nx]; try reflexivity.
      lia.
Qed.

Lemma array_sort_stable {A} (time : A -> Z) (t : Z) (l : list A) :
  filter (fun a => time a =? t)
         (array_sort (fun a b => d3.ascending (time a) (time b)) l)
  = filter (fun a => time a =? t) l.
Proof.
  induction l as [|x l IH]; simpl; [reflexivity|].
  rewrite sort_insert_at_time, IH. reflexivity.
Qed.

(** X4. Sorting a bucket is stable: the records of a bucket that carry the
    same date come in the order they have in the input. *)
Theorem buckets_keep_order_of_equal_dates (data : list DailyRecord)
    (b : Bucket.t) (t : Z) :
  In b (createDailyData data) ->
  filter (at_time t) (Bucket.days b)
  = filter (at_time t)
      (filter (same_month (Bucket.year b) (Bucket.month b)) data).
Proof.
  intros (y & m & _ & ->)%bucket_In. simpl.
  apply (array_sort_stable (fun d => getTime (date d))).
Qed.

Lemma buckets_keep_order_of_equal_dates_witness :
  In same_day_bucket (createDailyData same_day_twice)
  /\ filter (at_time (getTime (parseDate 2020 1 15))) (Bucket.days same_day_bucket)
     = filter (at_time (getTime (parseDate 2020 1 15)))
         (filter (same_month (Bucket.year same_day_bucket)
                             (Bucket.month same_day_bucket))
                 same_day_twice).
Proof.
  assert (In same_day_bucket (createDailyData same_day_twice)) as Hb.
  { vm_compute. left. reflexivity. }
  split; [exact Hb|].
  exact (buckets_keep_order_of_equal_dates same_day_twice same_day_bucket
           (getTime (parseDate 2020 1 15)) Hb).
Defined.

Lemma array_sort_sorted_id {A} (time : A -> Z) (l : list A) :
  StronglySorted (fun a b => time a <= time b) l ->
  array_sort (fun a b => d3.ascending (time a) (time b)) l = l.
Proof.
  induction 1 as [|x l Hs IH Hx]; simpl; [reflexivity|].
  rewrite IH. destruct l as [|y l]; [reflexivity|]. simpl.
  rewrite ascending_le. inversion Hx as [|? ? Hxy _]; subst.
  now rewrite (proj2 (Z.leb_le _ _) Hxy).
Qed.

Lemma StronglySorted_filter_keeps {A} (R : A -> A -> Prop) (p : A -> bool)
    (l : list A) :
  StronglySorted R l -> StronglySorted R (filter p l).
Proof.
  induction 1 as [|x l Hs IH Hx]; simpl; [constructor|].
  destruct (p x); [|exact IH]. constructor; [exact IH|].
  rewrite Forall_forall in *. intros a Ha. apply Hx.
  apply filter_In in Ha. tauto.
Qed.

(** X5. On records given in chronological order, as in the data file, sorting
    changes nothing: the days of a bucket are the input records of its month,
    in input order. *)
Theorem buckets_of_chronological_input (data : list DailyRecord) (b : Bucket.t) :
  StronglySorted date_le data ->
  In b (createDailyData data) ->
  Bucket.days b = filter (same_month (Bucket.year b) (Bucket.month b)) data.
Proof.
  intros Hs (y & m & _ & ->)%bucket_In. simpl.
  apply (array_sort_sorted_id (fun d => getTime (date d))).
  now apply StronglySorted_filter_keeps.
Qed.

Lemma buckets_of_chronological_input_witness :
  StronglySorted date_le scenario
  /\ In january_2020 (createDailyData scenario)
  /\ Bucket.days january_2020
     = filter (same_month (Bucket.year january_2020) (Bucket.month january_2020))
              scenario.
Proof.
  assert (StronglySorted date_le scenario) as Hs.
  { repeat constructor; vm_compute; discriminate. }
  assert (In january_2020 (createDailyData scenario)) as Hb.
  { vm_compute. left. reflexivity. }
  split; [exact Hs|]. split; [exact Hb|].
  exact (buckets_of_chronological_input scenario january_2020 Hs Hb).
Defined.

(* ================================================================== *)
(** * Further properties of the axes and the layout *)
(* ================================================================== *)

Lemma civil_month_range (z : Z) :
  let '(_, m, _) := civil_from_days z in 1 <= m <= 12.
Proof.
  unfold civil_from_days. cbv zeta.
  set (z' := z + 719468).
  set (era := z' / 146097).
  set (doe := z' - era * 146097).
  assert (0 <= doe < 146097) as Hdoe.
  { subst doe era. pose proof (Z.mod_pos_bound z' 146097).
    pose proof (Z.div_mod z' 146097). lia. }
  set (yoe := (doe - doe / 1460 + doe / 36524 - doe / 146096) / 365).
  set (doy := doe - (365 * yoe + yoe / 4 - yoe / 100)).
  assert (0 <= doy <= 365) as Hdoy.
  { subst doy yoe. Z.div_mod_to_equations. lia. }
  set (mp := (5 * doy + 2) / 153).
  assert (0 <= mp <= 11) as Hmp by (subst mp; Z.div_mod_to_equations; lia).
  destruct (Z.ltb_spec mp 10); lia.
Qed.

Lemma month_of_range (d : DailyRecord) : 1 <= month_of d <= 12.
Proof.
  unfold month_of, getMonth.
  pose proof (civil_month_range (getTime (date d) / msPerDay)) as H.
  destruct (civil_from_days _) as [[y m] dd]. lia.
Qed.

Lemma NoDup_in_range (l : list Z) (lo : Z) (n : nat) :
  NoDup l -> (forall x, In x l -> lo <= x < lo + Z.of_nat n) ->
  (length l <= n)%nat.
Proof.
  intros Hnd Hr.
  rewrite <- (length_seq n 0), <- (length_map (fun i => lo + Z.of_nat i)).
  apply NoDup_incl_length; [assumption|].
  intros x Hx. specialize (Hr x Hx). apply in_map_iff.
  exists (Z.to_nat (x - lo)). split; [lia|]. apply in_seq. lia.
Qed.

Lemma set_of_skip (l1 l2 : list Z) : forall seen,
  (forall x, In x l1 -> In x seen) -> set_of seen (l1 ++ l2) = set_of seen l2.
Proof.
  induction l1 as [|x l1 IH]; intros seen H; simpl; [reflexivity|].
  rewrite (proj2 (existsb_eqb_In x seen)) by (apply H; now left).
  apply IH. intros y Hy. apply H. now right.
Qed.

(** Runs of equal keys, for distinct keys, collapse to the keys. *)
Lemma set_of_runs {B} (run : Z -> list B) (S : list Z) : forall seen,
  NoDup S -> (forall k, In k S -> ~ In k seen) ->
  (forall k, In k S -> run k <> []) ->
  set_of seen (flat_map (fun k => map (fun _ => k) (run k)) S) = S.
Proof.
  induction S as [|k S IH]; intros seen Hnd Hseen Hrun; simpl; [reflexivity|].
  inversion Hnd as [|? ? Hk Hnd']; subst.
  destruct (run k) as [|b bs] eqn:E; [exfalso; apply (Hrun k); auto; now left|].
  simpl.
  destruct (existsb (Z.eqb k) seen) eqn:Ek.
  - apply existsb_eqb_In in Ek. exfalso. apply (Hseen k); [now left | assumption].
  - f_equal. rewrite set_of_skip.
    + apply IH; [assumption | | intros; apply Hrun; now right].
      intros k' Hk' [<- | Hin]; [contradiction|].
      apply (Hseen k'); [now right | assumption].
    + intros x (b' & <- & _)%in_map_iff. now left.
Qed.

Lemma summary_years (data : list DailyRecord) :
  new_Set (map Summary.year (createAggregatedData data))
  = new_Set (map year_of data).
Proof.
  rewrite createAggregatedData_leaves, map_map, leaves_closed.
  match goal with
  | |- new_Set (map ?f (flat_map ?g ?S1)) = _ =>
      replace (map f (flat_map g S1))
        with (flat_map
                (fun k1 => map (fun _ => k1)
                   (new_Set (map month_of (members year_of data k1)))) S1)
  end.
  - apply set_of_runs; [apply new_Set_NoDup | auto |].
    intros k Hk E. apply new_Set_In, in_map_iff in Hk.
    destruct Hk as (d & Hd & Hin).
    assert (In (month_of d) (new_Set (map month_of (members year_of data k)))) as H.
    { apply new_Set_In, in_map. apply filter_In. split; [assumption|].
      now apply Z.eqb_eq. }
    rewrite E in H. contradiction.
  - induction (new_Set (map year_of data)) as [|k1 S IH]; simpl; [reflexivity|].
    rewrite map_app, IH, map_map. reflexivity.
Qed.

Lemma summary_months (data : list DailyRecord) (m : Z) :
  In m (map Summary.month (createAggregatedData data))
  <-> exists d, In d data /\ month_of d = m.
Proof.
  rewrite in_map_iff. split.
  - intros (s & <- & (y & m' & (d & Hd & _ & Hm) & ->)%summary_In). simpl. eauto.
  - intros (d & Hd & <-). eexists. split; [|apply summary_In].
    2:{ exists (year_of d), (month_of d). split; [eauto | reflexivity]. }
    reflexivity.
Qed.

(** X6. In the aggregated view, whatever calls were made, the year axis lists
    the years of the records once each in the order of their first occurrence
    in the input (it is not sorted), and the month axis lists the months of
    the records once each; months lie between 1 and 12, so there are at most
    twelve rows. *)
Theorem yearly_axes (data : list DailyRecord) (calls : list Call) :
  let h := YearlyHeatmap.run calls (heatmap1 (initVisualizations data)) in
  Scale.band_domain (YearlyHeatmap.xScale h) = new_Set (map year_of data)
  /\ NoDup (Scale.band_domain (YearlyHeatmap.yScale h))
  /\ (forall m, In m (Scale.band_domain (YearlyHeatmap.yScale h))
                <-> exists d, In d data /\ month_of d = m)
  /\ (forall m, In m (Scale.band_domain (YearlyHeatmap.yScale h)) -> 1 <= m <= 12)
  /\ (length (Scale.band_domain (YearlyHeatmap.yScale h)) <= 12)%nat.
Proof.
  intros h.
  destruct (page_heatmap1_reached data calls) as ((_ & Hx & Hy & _) & _).
  fold h in Hx, Hy. rewrite Hx, Hy.
  change (Scale.band_domain
            (YearlyHeatmap.xScale (heatmap1 (initVisualizations data))))
    with (new_Set (map Summary.year (createAggregatedData data))).
  change (Scale.band_domain
            (YearlyHeatmap.yScale (heatmap1 (initVisualizations data))))
    with (new_Set (map Summary.month (createAggregatedData data))).
  assert (forall m, In m (new_Set (map Summary.month (createAggregatedData data)))
                    -> 1 <= m <= 12) as Hr.
  { intros m (d & _ & <-)%new_Set_In%summary_months. apply month_of_range. }
  split; [apply summary_years|]. split; [apply new_Set_NoDup|].
  split; [intros m; rewrite new_Set_In; apply summary_months|].
  split; [exact Hr|].
  apply (NoDup_in_range _ 1 12); [apply new_Set_NoDup|].
  intros m Hm. specialize (Hr m Hm). lia.
Qed.

Lemma sort_insert_sorted_by {A} (compare : A -> A -> Z) (time : A -> Z)
    (x : A) (l : list A) :
  (forall a b, (compare a b <=? 0) = (time a <=? time b)) ->
  StronglySorted (fun a b => time a <= time b) l ->
  StronglySorted (fun a b => time a <= time b) (sort_insert compare x l).
Proof.
  intros Hc. induction 1 as [|y l Hs IH Hy]; simpl.
  - repeat constructor.
  - rewrite Hc.
    destruct (Z.leb_spec (time x) (time y)) as [Hle | Hgt].
    + constructor; [constructor; assumption|].
      constructor; [exact Hle|].
      rewrite Forall_forall in *. intros z Hz. specialize (Hy z Hz). lia.
    + constructor; [exact IH|].
      rewrite Forall_forall in *. intros z Hz.
      apply (Permutation_in _ (sort_insert_Permutation _ x l)) in Hz.
      destruct Hz as [<- | Hz]; [lia | auto].
Qed.

Lemma numeric_sort_increasing (l : list Z) :
  NoDup l -> StronglySorted Z.lt (array_sort (fun a b => a - b) l).
Proof.
  intros Hnd.
  assert (StronglySorted (fun a b => a <= b) (array_sort (fun a b => a - b) l)) as Hs.
  { clear Hnd. induction l as [|x l IH]; simpl; [constructor|].
    apply (sort_insert_sorted_by _ (fun a => a)); [|exact IH].
    intros a b. destruct (Z.leb_spec (a - b) 0), (Z.leb_spec a b); lia. }
  assert (NoDup (array_sort (fun a b => a - b) l)) as Hnd'.
  { eapply Permutation_NoDup; [symmetry; apply array_sort_Permutation | exact Hnd]. }
  induction Hs as [|x s Hs IH Hx]; [constructor|].
  inversion Hnd' as [|? ? Hnx Hnd'']; subst.
  constructor; [now apply IH|].
  rewrite Forall_forall in *. intros y Hy. specialize (Hx y Hy).
  assert (x <> y) by (intros ->; contradiction). lia.
Qed.

Lemma bucket_year_In (data : list DailyRecord) (y : Z) :
  In y (map Bucket.year (createDailyData data))
  <-> exists d, In d data /\ year_of d = y.
Proof.
  rewrite in_map_iff. split.
  - intros (b & <- & (y' & m & (d & Hd & Hy & _) & ->)%bucket_In). simpl. eauto.
  - intros (d & Hd & <-). eexists. split; [|apply bucket_In].
    2:{ exists (year_of d), (month_of d). split; [eauto | reflexivity]. }
    reflexivity.
Qed.

Lemma bucket_month_In (data : list DailyRecord) (m : Z) :
  In m (map Bucket.month (createDailyData data))
  <-> exists d, In d data /\ month_of d = m.
Proof.
  rewrite in_map_iff. split.
  - intros (b & <- & (y' & m' & (d & Hd & _ & Hm) & ->)%bucket_In). simpl. eauto.
  - intros (d & Hd & <-). eexists. split; [|apply bucket_In].
    2:{ exists (year_of d), (month_of d). split; [eauto | reflexivity]. }
    reflexivity.
Qed.

Lemma recent_years_domains (data : list DailyRecord) (calls : list Call) :
  let h := RecentYearsHeatmap.run calls (heatmap2 (initVisualizations data)) in
  let windowed :=
    filter (in_window (d3.max data (fun d => Some (year_of d)))) data in
  Scale.band_domain (RecentYearsHeatmap.xScale h)
  = array_sort (fun a b => a - b)
      (new_Set (map Bucket.year (createDailyData windowed)))
  /\ Scale.band_domain (RecentYearsHeatmap.yScale h)
     = array_sort (fun a b => a - b)
         (new_Set (map Bucket.month (createDailyData windowed))).
Proof.
  intros h windowed.
  destruct (page_heatmap2_reached data calls) as ((_ & _ & Hx & Hy & _) & _).
  fold h in Hx, Hy. rewrite Hx, Hy. split; reflexivity.
Qed.

(** X7. In the recent-years view, whatever calls were made, the year axis is
    in strictly increasing order and lists exactly the years of the records
    that are at most nine years before the latest year [Yn]; it contains
    [Yn], lies within [Yn - 9, Yn] and has at most ten entries.  The month
    axis is in strictly increasing order too. *)
Theorem recent_years_axes (data : list DailyRecord) (Yn : Z) (calls : list Call) :
  is_max_of Yn (map year_of data) ->
  let h := RecentYearsHeatmap.run calls (heatmap2 (initVisualizations data)) in
  let years := Scale.band_domain (RecentYearsHeatmap.xScale h) in
  StronglySorted Z.lt years
  /\ (forall y, In y years <->
                exists d, In d data /\ year_of d = y /\ Yn - 9 <= y)
  /\ (forall y, In y years -> Yn - 9 <= y <= Yn)
  /\ In Yn years
  /\ (length years <= 10)%nat
  /\ StronglySorted Z.lt (Scale.band_domain (RecentYearsHeatmap.yScale h)).
Proof.
  intros Hmax h years.
  destruct (recent_years_domains data calls) as [Hx Hy].
  fold h in Hx, Hy. subst years. rewrite Hx, Hy.
  rewrite (proj2 (d3_max_is_max data year_of Yn) Hmax).
  assert (forall y, In y (array_sort (fun a b => a - b)
                       (new_Set (map Bucket.year
                          (createDailyData (filter (in_window (Some Yn)) data)))))
                    <-> exists d, In d data /\ year_of d = y /\ Yn - 9 <= y) as Hin.
  { intros y. rewrite array_sort_In, new_Set_In, bucket_year_In. split.
    - intros (d & Hd & <-). apply filter_In in Hd. destruct Hd as [Hd Hw].
      simpl in Hw. apply Z.leb_le in Hw. eauto.
    - intros (d & Hd & <- & Hw). exists d. split; [|reflexivity].
      apply filter_In. split; [assumption|]. simpl. now apply Z.leb_le. }
  assert (forall y, In y (array_sort (fun a b => a - b)
                       (new_Set (map Bucket.year
                          (createDailyData (filter (in_window (Some Yn)) data)))))
                    -> Yn - 9 <= y <= Yn) as Hr.
  { intros y (d & Hd & <- & Hw)%Hin. split; [assumption|].
    destruct Hmax as [_ Hle]. apply Hle. now apply in_map. }
  assert (NoDup (array_sort (fun a b => a - b)
                   (new_Set (map Bucket.year
                      (createDailyData (filter (in_window (Some Yn)) data)))))) as Hnd.
  { eapply Permutation_NoDup;
      [symmetry; apply array_sort_Permutation | apply new_Set_NoDup]. }
  split; [apply numeric_sort_increasing, new_Set_NoDup|].
  split; [exact Hin|]. split; [exact Hr|]. split.
  - apply Hin. destruct Hmax as [(d & <- & Hd)%in_map_iff _].
    exists d. split; [assumption|]. split; [reflexivity | lia].
  - split.
    + apply (NoDup_in_range _ (Yn - 9) 10); [exact Hnd|].
      intros y Hin_y. specialize (Hr y Hin_y). lia.
    + apply numeric_sort_increasing, new_Set_NoDup.
Qed.

(** Eleven consecutive years: the first one falls out of the window. *)
Lemma recent_years_axes_witness :
  is_max_of 2020 (map year_of eleven_years)
  /\ Scale.band_domain
       (RecentYearsHeatmap.xScale (heatmap2 (initVisualizations eleven_years)))
     = [2011; 2012; 2013; 2014; 2015; 2016; 2017; 2018; 2019; 2020]
  /\ (length
        (Scale.band_domain
           (RecentYearsHeatmap.xScale
              (RecentYearsHeatmap.run []
                 (heatmap2 (initVisualizations eleven_years))))) <= 10)%nat.
Proof.
  assert (is_max_of 2020 (map year_of eleven_years)) as Hmax.
  { vm_compute. split; [now left|].
    intros x H. repeat (destruct H as [<- | H]; [discriminate|]). contradiction. }
  split; [exact Hmax|]. split; [vm_compute; reflexivity|].
  exact (proj1 (proj2 (proj2 (proj2 (proj2
           (recent_years_axes eleven_years 2020 [] Hmax)))))).
Defined.

(** ** Band scales place their bands side by side inside the range *)

Lemma index_of_nth (dom : list Z) (v : Z) : forall i,
  Scale.index_of v dom = Some i -> nth_error dom i = Some v.
Proof.
  induction dom as [|y dom IH]; intros i H; simpl in H; [discriminate|].
  destruct (Z.eqb_spec y v) as [-> | Hne].
  - injection H as <-. reflexivity.
  - destruct (Scale.index_of v dom) as [j|]; [|discriminate].
    injection H as <-. simpl. now apply IH.
Qed.

Lemma index_of_In (dom : list Z) (v : Z) :
  In v dom -> exists i, Scale.index_of v dom = Some i /\ (i < length dom)%nat.
Proof.
  induction dom as [|y dom IH]; intros H; [contradiction|]. simpl.
  destruct (Z.eqb_spec y v) as [-> | Hne].
  - exists O. split; [reflexivity | lia].
  - destruct H as [-> | H]; [congruence|].
    destruct (IH H) as (i & -> & Hi). exists (S i). split; [reflexivity | lia].
Qed.

Lemma inject_nat_succ_le (i j : nat) :
  (i < j)%nat -> (inject_Z (Z.of_nat i) + 1 <= inject_Z (Z.of_nat j))%Q.
Proof.
  intros H. change 1%Q with (inject_Z 1).
  rewrite <- inject_Z_plus, <- Zle_Qle. lia.
Qed.

Lemma inject_nat_nonneg (i : nat) : (0 <= inject_Z (Z.of_nat i))%Q.
Proof. change 0%Q with (inject_Z 0). rewrite <- Zle_Qle. lia. Qed.

Lemma band_step_facts (dom : list Z) (w : Q) :
  (0 < w)%Q ->
  let s := Scale.mkBand dom (0%Q, w) (1 # 10)%Q in
  (0 < Scale.band_step s)%Q
  /\ (Scale.band_step s * (Scale.band_n s + (1 # 10)) <= w)%Q.
Proof.
  intros Hw s. unfold Scale.band_step. simpl.
  assert (0 <= Scale.band_n s)%Q as Hn by apply inject_nat_nonneg.
  fold (Scale.band_n s).
  set (m := (Scale.band_n s - (1 # 10) + (1 # 10) * 2)%Q).
  assert (0 < (if Qle_bool 1 m then m else 1))%Q as Hd.
  { destruct (Qle_bool 1 m) eqn:E; [apply Qle_bool_iff in E|]; lra. }
  assert (m <= (if Qle_bool 1 m then m else 1))%Q as Hge.
  { destruct (Qle_bool 1 m) eqn:E; [lra|].
    assert (~ (1 <= m)%Q) by (rewrite <- Qle_bool_iff; congruence). lra. }
  set (den := (if Qle_bool 1 m then m else 1)%Q) in *.
  assert ((0 - 0) == 0)%Q as Hz by lra.
  assert ((w - 0) / den * den == w)%Q as Hs by (field; lra).
  assert (0 < (w - 0) / den)%Q as Hp by (apply Qlt_shift_div_l; lra).
  split; [exact Hp|]. subst m. nra.
Qed.

Lemma band_layout (dom : list Z) (w : Q) :
  (0 < w)%Q ->
  let s := Scale.mkBand dom (0%Q, w) (1 # 10)%Q in
  (0 < Scale.bandwidth s)%Q
  /\ (forall v, In v dom ->
        exists x, Scale.band s v = Some x
                  /\ (0 <= x)%Q /\ (x + Scale.bandwidth s <= w)%Q)
  /\ (forall v1 v2 x1 x2,
        v1 <> v2 -> Scale.band s v1 = Some x1 -> Scale.band s v2 = Some x2 ->
        (x1 + Scale.bandwidth s <= x2)%Q \/ (x2 + Scale.bandwidth s <= x1)%Q).
Proof.
  intros Hw s. destruct (band_step_facts dom w Hw) as [Hp Hfit].
  fold s in Hp, Hfit.
  assert (forall i, (i < length dom)%nat ->
            (0 <= Scale.band_start s + Scale.band_step s * inject_Z (Z.of_nat i))%Q
            /\ (Scale.band_start s + Scale.band_step s * inject_Z (Z.of_nat i)
                + Scale.bandwidth s <= w)%Q) as Hin.
  { intros i Hi. pose proof (inject_nat_succ_le i _ Hi) as Hle.
    pose proof (inject_nat_nonneg i) as Hi0.
    change (inject_Z (Z.of_nat (length dom))) with (Scale.band_n s) in Hle.
    unfold Scale.band_start, Scale.bandwidth. simpl.
    change (inject_Z (Z.of_nat (length dom))) with (Scale.band_n s).
    set (st := Scale.band_step s) in *. set (n := Scale.band_n s) in *.
    set (q := inject_Z (Z.of_nat i)) in *.
    assert (0 <= st * (n - 1 - q))%Q as Hprod by (apply Qmult_le_0_compat; lra).
    assert (0 <= st * q)%Q as Hq by (apply Qmult_le_0_compat; lra).
    clearbody st n q. split; nra. }
  split; [unfold Scale.bandwidth; simpl; nra|]. split.
  - intros v (i & Hi & Hlt)%index_of_In. unfold Scale.band. simpl.
    rewrite Hi. simpl. eexists. split; [reflexivity|]. now apply Hin.
  - intros v1 v2 x1 x2 Hne H1 H2. unfold Scale.band in H1, H2. simpl in H1, H2.
    destruct (Scale.index_of v1 dom) as [i|] eqn:E1; [|discriminate].
    destruct (Scale.index_of v2 dom) as [j|] eqn:E2; [|discriminate].
    injection H1 as <-. injection H2 as <-.
    assert (i <> j) as Hij.
    { intros ->. apply index_of_nth in E1, E2. congruence. }
    unfold Scale.bandwidth. simpl.
    set (st := Scale.band_step s) in *.
    destruct (Nat.lt_ge_cases i j) as [Hlt | Hge].
    + left. pose proof (inject_nat_succ_le i j Hlt). nra.
    + right. assert (j < i)%nat as Hlt by lia.
      pose proof (inject_nat_succ_le j i Hlt). nra.
Qed.

Lemma yearly_scales (data : list DailyRecord) (calls : list Call) :
  let h := YearlyHeatmap.run calls (heatmap1 (initVisualizations data)) in
  YearlyHeatmap.xScale h
  = Scale.mkBand (new_Set (map Summary.year (createAggregatedData data)))
      (0%Q, YearlyHeatmap.width) (1 # 10)%Q
  /\ YearlyHeatmap.yScale h
     = Scale.mkBand (new_Set (map Summary.month (createAggregatedData data)))
         (0%Q, YearlyHeatmap.height) (1 # 10)%Q
  /\ exists f, YearlyHeatmap.matrix h
               = map (rect_of h f) (createAggregatedData data).
Proof.
  intros h.
  destruct (page_heatmap1_reached data calls) as ((Hp & Hx & Hy & _) & Hd & _).
  fold h in Hp, Hx, Hy, Hd. rewrite Hx, Hy.
  split; [reflexivity|]. split; [reflexivity|].
  destruct Hd as [f E]. exists f. rewrite E, Hp. reflexivity.
Qed.

(** X8. In the aggregated view, whatever calls were made, every rectangle has
    a defined position, a positive size and lies within the 790 by 320
    plotting area; two rectangles of different (year, month) never overlap:
    they are apart horizontally when their years differ and vertically when
    their months differ. *)
Theorem yearly_layout (data : list DailyRecord) (calls : list Call) :
  let h := YearlyHeatmap.run calls (heatmap1 (initVisualizations data)) in
  (forall r, In r (YearlyHeatmap.matrix h) ->
     exists x y,
       YearlyHeatmap.x r = Some x /\ YearlyHeatmap.y r = Some y
       /\ (0 <= x)%Q /\ (x + YearlyHeatmap.rect_width r <= 790)%Q
       /\ (0 <= y)%Q /\ (y + YearlyHeatmap.rect_height r <= 320)%Q
       /\ (0 < YearlyHeatmap.rect_width r)%Q
       /\ (0 < YearlyHeatmap.rect_height r)%Q)
  /\ (forall r1 r2 x1 y1 x2 y2,
        In r1 (YearlyHeatmap.matrix h) -> In r2 (YearlyHeatmap.matrix h) ->
        YearlyHeatmap.x r1 = Some x1 -> YearlyHeatmap.y r1 = Some y1 ->
        YearlyHeatmap.x r2 = Some x2 -> YearlyHeatmap.y r2 = Some y2 ->
        (Summary.year (YearlyHeatmap.datum r1)
         <> Summary.year (YearlyHeatmap.datum r2) ->
         (x1 + YearlyHeatmap.rect_width r1 <= x2)%Q
         \/ (x2 + YearlyHeatmap.rect_width r2 <= x1)%Q)
        /\ (Summary.month (YearlyHeatmap.datum r1)
            <> Summary.month (YearlyHeatmap.datum r2) ->
            (y1 + YearlyHeatmap.rect_height r1 <= y2)%Q
            \/ (y2 + YearlyHeatmap.rect_height r2 <= y1)%Q)).
Proof.
  intros h. destruct (yearly_scales data calls) as (Hx & Hy & f & Hm).
  fold h in Hx, Hy, Hm.
  assert (0 < YearlyHeatmap.width)%Q as Hw by reflexivity.
  assert (0 < YearlyHeatmap.height)%Q as Hh by reflexivity.
  destruct (band_layout (new_Set (map Summary.year (createAggregatedData data)))
              _ Hw) as (Hbx & Hinx & Hdx).
  destruct (band_layout (new_Set (map Summary.month (createAggregatedData data)))
              _ Hh) as (Hby & Hiny & Hdy).
  rewrite <- Hx in Hbx, Hinx, Hdx. rewrite <- Hy in Hby, Hiny, Hdy.
  rewrite Hm. split.
  - intros r (d & <- & Hd)%in_map_iff. simpl.
    destruct (Hinx (Summary.year d)) as (x & Ex & Hx0 & Hx1).
    { apply new_Set_In. now apply in_map. }
    destruct (Hiny (Summary.month d)) as (y & Ey & Hy0 & Hy1).
    { apply new_Set_In. now apply in_map. }
    exists x, y. repeat split; assumption.
  - intros r1 r2 x1 y1 x2 y2 (d1 & <- & Hd1)%in_map_iff (d2 & <- & Hd2)%in_map_iff.
    simpl. intros Ex1 Ey1 Ex2 Ey2. split; intros Hne.
    + exact (Hdx _ _ _ _ Hne Ex1 Ex2).
    + exact (Hdy _ _ _ _ Hne Ey1 Ey2).
Qed.

Lemma recent_years_scales (data : list DailyRecord) (calls : list Call) :
  let h := RecentYearsHeatmap.run calls (heatmap2 (initVisualizations data)) in
  let buckets := RecentYearsHeatmap.processedDailyData h in
  RecentYearsHeatmap.xScale h
  = Scale.mkBand (array_sort (fun a b => a - b) (new_Set (map Bucket.year buckets)))
      (0%Q, RecentYearsHeatmap.width) (1 # 10)%Q
  /\ RecentYearsHeatmap.yScale h
     = Scale.mkBand (array_sort (fun a b => a - b) (new_Set (map Bucket.month buckets)))
         (0%Q, RecentYearsHeatmap.height) (1 # 10)%Q
  /\ exists f, RecentYearsHeatmap.cells h = map (cell_of h f) buckets.
Proof.
  intros h buckets.
  destruct (page_heatmap2_reached data calls) as ((Hp & _ & Hx & Hy & _) & Hd & _).
  fold h in Hp, Hx, Hy, Hd. subst buckets. rewrite Hx, Hy, Hp.
  split; [reflexivity|]. split; [reflexivity|].
  destruct Hd as [f E]. exists f. rewrite E, Hp. reflexivity.
Qed.

(** X9. In the recent-years view, whatever calls were made, every cell has a
    defined translation, a positive size and lies within the 790 by 350
    plotting area, and two cells of different (year, month) never overlap. *)
Theorem recent_years_layout (data : list DailyRecord) (calls : list Call) :
  let h := RecentYearsHeatmap.run calls (heatmap2 (initVisualizations data)) in
  (forall c, In c (RecentYearsHeatmap.cells h) ->
     exists x y,
       RecentYearsHeatmap.transform c = (Some x, Some y)
       /\ (0 <= x)%Q /\ (x + RecentYearsHeatmap.bg_width c <= 790)%Q
       /\ (0 <= y)%Q /\ (y + RecentYearsHeatmap.bg_height c <= 350)%Q
       /\ (0 < RecentYearsHeatmap.bg_width c)%Q
       /\ (0 < RecentYearsHeatmap.bg_height c)%Q)
  /\ (forall c1 c2 x1 y1 x2 y2,
        In c1 (RecentYearsHeatmap.cells h) -> In c2 (RecentYearsHeatmap.cells h) ->
        RecentYearsHeatmap.transform c1 = (Some x1, Some y1) ->
        RecentYearsHeatmap.transform c2 = (Some x2, Some y2) ->
        (Bucket.year (RecentYearsHeatmap.datum c1)
         <> Bucket.year (RecentYearsHeatmap.datum c2) ->
         (x1 + RecentYearsHeatmap.bg_width c1 <= x2)%Q
         \/ (x2 + RecentYearsHeatmap.bg_width c2 <= x1)%Q)
        /\ (Bucket.month (RecentYearsHeatmap.datum c1)
            <> Bucket.month (RecentYearsHeatmap.datum c2) ->
            (y1 + RecentYearsHeatmap.bg_height c1 <= y2)%Q
            \/ (y2 + RecentYearsHeatmap.bg_height c2 <= y1)%Q)).
Proof.
  intros h. destruct (recent_years_scales data calls) as (Hx & Hy & f & Hm).
  fold h in Hx, Hy, Hm.
  assert (0 < RecentYearsHeatmap.width)%Q as Hw by reflexivity.
  assert (0 < RecentYearsHeatmap.height)%Q as Hh by reflexivity.
  destruct (band_layout
              (array_sort (fun a b => a - b)
                 (new_Set (map Bucket.year (RecentYearsHeatmap.processedDailyData h))))
              _ Hw) as (Hbx & Hinx & Hdx).
  destruct (band_layout
              (array_sort (fun a b => a - b)
                 (new_Set (map Bucket.month (RecentYearsHeatmap.processedDailyData h))))
              _ Hh) as (Hby & Hiny & Hdy).
  rewrite <- Hx in Hbx, Hinx, Hdx. rewrite <- Hy in Hby, Hiny, Hdy.
  rewrite Hm. split.
  - intros c (d & <- & Hd)%in_map_iff. simpl.
    destruct (Hinx (Bucket.year d)) as (x & Ex & Hx0 & Hx1).
    { apply array_sort_In, new_Set_In. now apply in_map. }
    destruct (Hiny (Bucket.month d)) as (y & Ey & Hy0 & Hy1).
    { apply array_sort_In, new_Set_In. now apply in_map. }
    exists x, y. rewrite Ex, Ey. repeat split; assumption.
  - intros c1 c2 x1 y1 x2 y2 (d1 & <- & Hd1)%in_map_iff (d2 & <- & Hd2)%in_map_iff.
    simpl. intros [= Ex1 Ey1] [= Ex2 Ey2]. split; intros Hne.
    + exact (Hdx _ _ _ _ Hne Ex1 Ex2).
    + exact (Hdy _ _ _ _ Hne Ey1 Ey2).
Qed.

(* ================================================================== *)
(** * Further properties of the mode coordinator *)
(* ================================================================== *)

Lemma toggles_views (selected : list TempType) : forall p,
  heatmap1 (toggles selected p)
  = YearlyHeatmap.run (calls_of selected) (heatmap1 p)
  /\ heatmap2 (toggles selected p)
     = RecentYearsHeatmap.run (calls_of selected) (heatmap2 p)
  /\ tooltip (toggles selected p) = tooltip p.
Proof.
  induction selected as [|f selected IH]; intros p; simpl.
  - repeat split.
  - destruct (IH (change f p)) as (H1 & H2 & H3).
    unfold toggles in *. simpl. rewrite H1, H2, H3. repeat split.
Qed.

Lemma toggle1_canonical tempType h :
  NoDup (map YearlyHeatmap.key (YearlyHeatmap.processedData h)) ->
  drawn1 h ->
  YearlyHeatmap.updateLegend tempType (YearlyHeatmap.updateMatrix tempType h)
  = YearlyHeatmap.mk (YearlyHeatmap.processedData h) (YearlyHeatmap.xScale h)
      (YearlyHeatmap.yScale h) (YearlyHeatmap.colorScale h)
      (YearlyHeatmap.getExtent h tempType)
      (map (rect_of h tempType) (YearlyHeatmap.processedData h)).
Proof.
  intros Hnd Hd. rewrite (updateMatrix1_eq tempType h Hnd Hd). reflexivity.
Qed.

Lemma toggle2_canonical tempType h :
  NoDup (map RecentYearsHeatmap.key (RecentYearsHeatmap.processedDailyData h)) ->
  drawn2 h ->
  RecentYearsHeatmap.updateLegend tempType
    (RecentYearsHeatmap.updateMatrix tempType h)
  = RecentYearsHeatmap.mk (RecentYearsHeatmap.processedDailyData h)
      (RecentYearsHeatmap.filteredData h) (RecentYearsHeatmap.xScale h)
      (RecentYearsHeatmap.yScale h) (RecentYearsHeatmap.globalMiniExtent h)
      (RecentYearsHeatmap.getGlobalTempExtent h tempType)
      (map (cell_of h tempType) (RecentYearsHeatmap.processedDailyData h)).
Proof.
  intros Hnd Hd. rewrite (updateMatrix2_eq tempType h Hnd Hd). reflexivity.
Qed.

(** X10. Only the last selection counts: on the page reached by any sequence
    of selections, selecting [g] and then [f] leaves the page exactly as
    selecting [f] at once does (in particular selecting the same field twice
    is selecting it once), and a selection never touches the tooltip. *)
Theorem last_selection_wins (data : list DailyRecord)
    (selected : list TempType) (f g : TempType) :
  let p := toggles selected (initVisualizations data) in
  change f (change g p) = change f p
  /\ change f (change f p) = change f p
  /\ tooltip (change f p) = tooltip p.
Proof.
  intros p.
  destruct (toggles_views selected (initVisualizations data)) as (H1 & H2 & _).
  fold p in H1, H2.
  destruct (page_heatmap1_reached data (calls_of selected)) as (_ & Hd1 & Hnd1).
  destruct (page_heatmap2_reached data (calls_of selected)) as (_ & Hd2 & Hnd2).
  rewrite <- H1 in Hd1, Hnd1. rewrite <- H2 in Hd2, Hnd2.
  assert (forall g', change f (change g' p) = change f p) as Hfg.
  { intros g'. unfold change. simpl.
    rewrite (toggle1_canonical g' _ Hnd1 Hd1), (toggle2_canonical g' _ Hnd2 Hd2).
    rewrite (toggle1_canonical f (heatmap1 p) Hnd1 Hd1).
    rewrite (toggle2_canonical f (heatmap2 p) Hnd2 Hd2).
    rewrite toggle1_canonical; [|exact Hnd1 | exists g'; reflexivity].
    rewrite toggle2_canonical; [|exact Hnd2 | exists g'; reflexivity].
    reflexivity. }
  split; [apply Hfg|]. split; [apply Hfg | reflexivity].
Qed.

(** X11. In the recent-years view the legend and the colours agree after
    every selection: on the page reached by any sequence of selections,
    selecting a field sets the legend scale's domain to the extent of the
    field's column over the windowed records, and every cell's fill is the
    colour a scale of that very domain gives to the cell's aggregate. *)
Theorem recent_years_legend_matches_fills (data : list DailyRecord)
    (selected : list TempType) (f : TempType) :
  let h := heatmap2 (change f (toggles selected (initVisualizations data))) in
  RecentYearsHeatmap.legendScale h
  = d3.extent (RecentYearsHeatmap.filteredData (heatmap2 (initVisualizations data)))
      (fun d => Some (match f with
                      | TMax => max_temperature d
                      | TMin => min_temperature d
                      end))
  /\ Forall
       (fun c =>
          RecentYearsHeatmap.bg_fill c
          = Scale.sequential (RecentYearsHeatmap.legendScale h)
              (RecentYearsHeatmap.aggVal f (RecentYearsHeatmap.datum c)))
       (RecentYearsHeatmap.cells h).
Proof.
  intros h.
  destruct (toggles_views selected (initVisualizations data)) as (_ & H2 & _).
  destruct (page_heatmap2_reached data (calls_of selected))
    as ((_ & Hf & _) & Hd2 & Hnd2).
  rewrite <- H2 in Hd2, Hnd2, Hf.
  assert (h = RecentYearsHeatmap.updateLegend f
                (RecentYearsHeatmap.updateMatrix f
                   (heatmap2 (toggles selected (initVisualizations data))))) as Eh
    by reflexivity.
  rewrite (toggle2_canonical f _ Hnd2 Hd2) in Eh. rewrite Eh. simpl. split.
  - unfold RecentYearsHeatmap.getGlobalTempExtent. rewrite Hf.
    destruct f; reflexivity.
  - apply Forall_forall. intros c (d & <- & Hd)%in_map_iff. reflexivity.
Qed.

(* ================================================================== *)
(** * Further properties of hovering *)
(* ================================================================== *)

Lemma bucket_days (data : list DailyRecord) (b : Bucket.t) :
  In b (createDailyData data) ->
  Bucket.days b <> [] /\ forall day, In day (Bucket.days b) -> In day data.
Proof.
  intros (y & m & Hex & ->)%bucket_In. simpl. split.
  - apply group_nonempty in Hex. intros E. apply Hex.
    apply Permutation_nil. rewrite <- E. apply array_sort_Permutation.
  - intros day Hd%array_sort_In. apply filter_In in Hd. tauto.
Qed.


Lemma array_get_In {A} (l : list A) (index : option Z) (a : A) :
  array_get l index = Some a -> In a l.
Proof.
  unfold array_get. destruct index as [i|]; [|discriminate].
  destruct (i <? 0); [discriminate|]. apply nth_error_In.
Qed.



(** The invariant of hovering: the tooltip is shown only with a text, and its
    text is a day of a bucket of the view. *)
Lemma hovers_invariant (h : RecentYearsHeatmap.t) (events : list Hover) :
  forall tooltip,
  (forall e d, In e events -> hovered e = Some d ->
               In d (RecentYearsHeatmap.processedDailyData h)) ->
  (Tooltip.display tooltip = true -> Tooltip.html tooltip <> None) ->
  (forall text, Tooltip.html tooltip = Some text ->
     exists d day, In d (RecentYearsHeatmap.processedDailyData h)
                   /\ In day (Bucket.days d)
                   /\ text = DayText (date day) (max_temperature day)
                                     (min_temperature day)) ->
  let t := hovers h events tooltip in
  (Tooltip.display t = true -> Tooltip.html t <> None)
  /\ (forall text, Tooltip.html t = Some text ->
        exists d day, In d (RecentYearsHeatmap.processedDailyData h)
                      /\ In day (Bucket.days d)
                      /\ text = DayText (date day) (max_temperature day)
                                        (min_temperature day)).
Proof.
  induction events as [|e events IH]; intros tooltip Hev Hshow Htext; simpl.
  - split; assumption.
  - apply IH.
    + intros e' d He'. apply Hev. now right.
    + destruct e as [d event | d event |]; simpl.
      * unfold RecentYearsHeatmap.mouseover.
        destruct (RecentYearsHeatmap.dayData h d event); simpl;
          [discriminate | exact Hshow].
      * unfold RecentYearsHeatmap.mousemove.
        destruct (RecentYearsHeatmap.dayData h d event); simpl; exact Hshow.
      * discriminate.
    + destruct e as [d event | d event |]; simpl.
      * unfold RecentYearsHeatmap.mouseover.
        destruct (RecentYearsHeatmap.dayData h d event) as [day|] eqn:E; simpl;
          [|exact Htext].
        intros text [= <-]. exists d, day. split.
        -- apply (Hev (Mouseover d event)); [now left | reflexivity].
        -- split; [|reflexivity]. eapply array_get_In. exact E.
      * unfold RecentYearsHeatmap.mousemove.
        destruct (RecentYearsHeatmap.dayData h d event); simpl; exact Htext.
      * exact Htext.
Qed.

(** X14. After any sequence of hover events on cells of the recent-years
    view, starting from the hidden empty tooltip, the tooltip is displayed
    only with a text, and its text is always the date, maximum and minimum of
    one record of the input that lies in the window. *)
Theorem tooltip_shows_a_windowed_record (data : list DailyRecord)
    (calls : list Call) (events : list Hover) :
  let h := RecentYearsHeatmap.run calls (heatmap2 (initVisualizations data)) in
  (forall e d, In e events -> hovered e = Some d ->
               In d (RecentYearsHeatmap.processedDailyData h)) ->
  let t := hovers h events Tooltip.initial in
  (Tooltip.display t = true -> Tooltip.html t <> None)
  /\ (forall text, Tooltip.html t = Some text ->
        exists day,
          In day data
          /\ in_window (d3.max data (fun d => Some (year_of d))) day = true
          /\ text = DayText (date day) (max_temperature day)
                            (min_temperature day)).
Proof.
  intros h Hev t.
  destruct (hovers_invariant h events Tooltip.initial Hev) as [Hshow Htext].
  - discriminate.
  - discriminate.
  - split; [exact Hshow|]. intros text Ht.
    destruct (Htext text Ht) as (d & day & Hd & Hday & ->).
    destruct (page_heatmap2_reached data calls) as ((Hp & _) & _).
    fold h in Hp. rewrite Hp, page_processedDailyData in Hd.
    apply (bucket_days _ d Hd) in Hday. rewrite page_filteredData in Hday.
    apply filter_In in Hday. exists day. tauto.
Qed.

Lemma tooltip_shows_a_windowed_record_witness :
  (forall e d,
      In e [Mouseover january_2020 pointer_on_day_1;
            Mousemove january_2020 pointer_on_day_2; Mouseout] ->
      hovered e = Some d ->
      In d (RecentYearsHeatmap.processedDailyData
              (RecentYearsHeatmap.run [] (heatmap2 (initVisualizations scenario)))))
  /\ (Tooltip.display
        (hovers (RecentYearsHeatmap.run [] (heatmap2 (initVisualizations scenario)))
           [Mouseover january_2020 pointer_on_day_1;
            Mousemove january_2020 pointer_on_day_2; Mouseout]
           Tooltip.initial) = true ->
      Tooltip.html
        (hovers (RecentYearsHeatmap.run [] (heatmap2 (initVisualizations scenario)))
           [Mouseover january_2020 pointer_on_day_1;
            Mousemove january_2020 pointer_on_day_2; Mouseout]
           Tooltip.initial) <> None).
Proof.
  assert (forall e d,
            In e [Mouseover january_2020 pointer_on_day_1;
                  Mousemove january_2020 pointer_on_day_2; Mouseout] ->
            hovered e = Some d ->
            In d (RecentYearsHeatmap.processedDailyData
                    (RecentYearsHeatmap.run []
                       (heatmap2 (initVisualizations scenario))))) as Hev.
  { intros e d [<- | [<- | [<- | []]]] [= <-]; vm_compute; left; reflexivity. }
  split; [exact Hev|].
  exact (proj1 (tooltip_shows_a_windowed_record scenario [] _ Hev)).
Defined.

(* ================================================================== *)
(** * Further properties of the colours and the mini charts *)
(* ================================================================== *)

Lemma ratio_unit (p q : Z) :
  0 <= p <= q -> 0 < q -> (0 <= inject_Z p / inject_Z q <= 1)%Q.
Proof.
  intros [Hp Hpq] Hq.
  assert (0 < inject_Z q)%Q as Hq' by (change 0%Q with (inject_Z 0); now rewrite <- Zlt_Qlt).
  assert (0 <= inject_Z p)%Q as Hp' by (change 0%Q with (inject_Z 0); now rewrite <- Zle_Qle).
  assert (inject_Z p <= inject_Z q)%Q as Hpq' by (now rewrite <- Zle_Qle).
  split.
  - apply Qle_shift_div_l; [assumption | lra].
  - apply Qle_shift_div_r; [assumption | lra].
Qed.


Lemma sequential_on_ramp (lo hi v : Z) :
  lo <= v <= hi ->
  exists t, Scale.sequential (Some lo, Some hi) (Some v)
            = Some (Scale.interpolateYlOrRd (Some t))
            /\ (0 <= t <= 1)%Q.
Proof.
  intros H. simpl. eexists. split; [reflexivity|].
  destruct (Z.eqb_spec lo hi); [split; lra|].
  assert (~ inject_Z (hi - lo) == 0)%Q as Hnz.
  { change 0%Q with (inject_Z 0). rewrite inject_Z_injective. lia. }
  assert (inject_Z (v - lo) * (1 / inject_Z (hi - lo))
          == inject_Z (v - lo) / inject_Z (hi - lo))%Q as E by (field; exact Hnz).
  rewrite E. apply ratio_unit; lia.
Qed.

(** A value taken by some element lies between [d3.min] and [d3.max]. *)
Lemma between_min_max {A} (l : list A) (g : A -> Z) (a : A) :
  In a l ->
  exists lo hi,
    d3.min l (fun r => Some (g r)) = Some lo
    /\ d3.max l (fun r => Some (g r)) = Some hi
    /\ lo <= g a <= hi.
Proof.
  intros Ha.
  assert (l <> []) as Hne by (intros ->; contradiction).
  destruct (d3_min_defined l g Hne) as [lo Hlo].
  destruct (d3_max_defined l g Hne) as [hi Hhi].
  exists lo, hi. split; [assumption|]. split; [assumption|].
  apply d3_min_char in Hlo. apply d3_max_char in Hhi.
  destruct Hlo as (_ & Hl). destruct Hhi as (_ & Hh).
  specialize (Hl a _ Ha eq_refl). specialize (Hh a _ Ha eq_refl). lia.
Qed.

Lemma attained_max {A} (l : list A) (g : A -> Z) :
  l <> [] ->
  exists a, In a l /\ d3.max l (fun r => Some (g r)) = Some (g a).
Proof.
  intros Hne. destruct (d3_max_defined l g Hne) as [hi Hhi].
  pose proof Hhi as H. apply d3_max_char in H.
  destruct H as ((a & Ha & [= <-]) & _). eauto.
Qed.

Lemma attained_min {A} (l : list A) (g : A -> Z) :
  l <> [] ->
  exists a, In a l /\ d3.min l (fun r => Some (g r)) = Some (g a).
Proof.
  intros Hne. destruct (d3_min_defined l g Hne) as [lo Hlo].
  pose proof Hlo as H. apply d3_min_char in H.
  destruct H as ((a & Ha & [= <-]) & _). eauto.
Qed.

Lemma cell_fill (data : list DailyRecord) (tempType : TempType) (d : Bucket.t) :
  let windowed :=
    filter (in_window (d3.max data (fun d => Some (year_of d)))) data in
  RecentYearsHeatmap.bg_fill
    (cell_of (heatmap2 (initVisualizations data)) tempType d)
  = match tempType with
    | TMax =>
        Scale.sequential
          (d3.min windowed (fun r => Some (max_temperature r)),
           d3.max windowed (fun r => Some (max_temperature r)))
          (d3.max (Bucket.days d) (fun r => Some (max_temperature r)))
    | TMin =>
        Scale.sequential
          (d3.min windowed (fun r => Some (min_temperature r)),
           d3.max windowed (fun r => Some (min_temperature r)))
          (d3.min (Bucket.days d) (fun r => Some (min_temperature r)))
    end.
Proof.
  intros windowed. unfold cell_of. simpl RecentYearsHeatmap.bg_fill.
  unfold RecentYearsHeatmap.getGlobalTempExtent, RecentYearsHeatmap.aggVal.
  destruct tempType; rewrite d3_extent_min_max; reflexivity.
Qed.

(** X15. In the recent-years view, after [updateMatrix(field)] and whatever
    calls came before, every cell has a colour and the parameter at which the
    colour ramp is read lies between 0 and 1: no cell falls off the ramp. *)
Theorem recent_years_fills_on_ramp (data : list DailyRecord)
    (calls : list Call) (tempType : TempType) :
  let h := RecentYearsHeatmap.updateMatrix tempType
             (RecentYearsHeatmap.run calls (heatmap2 (initVisualizations data))) in
  Forall
    (fun c =>
       exists t, RecentYearsHeatmap.bg_fill c
                 = Some (Scale.interpolateYlOrRd (Some t))
                 /\ (0 <= t <= 1)%Q)
    (RecentYearsHeatmap.cells h).
Proof.
  intros h. unfold h. rewrite updateMatrix2_cells.
  apply Forall_forall. intros c (d & <- & Hd)%in_map_iff.
  rewrite page_processedDailyData, page_filteredData in Hd.
  destruct (bucket_days _ d Hd) as [Hne Hdays].
  rewrite cell_fill. cbv zeta.
  destruct tempType.
  - destruct (attained_max (Bucket.days d) max_temperature Hne) as (a & Ha & ->).
    destruct (between_min_max _ max_temperature a (Hdays a Ha))
      as (lo & hi & -> & -> & Hr).
    now apply sequential_on_ramp.
  - destruct (attained_min (Bucket.days d) min_temperature Hne) as (a & Ha & ->).
    destruct (between_min_max _ min_temperature a (Hdays a Ha))
      as (lo & hi & -> & -> & Hr).
    now apply sequential_on_ramp.
Qed.

(** X16. In the aggregated view, when every record has its minimum at most
    its maximum, after [updateMatrix(field)] and whatever calls came before
    every rectangle has a colour and the parameter at which the colour ramp is
    read lies between 0 and 1. *)
Theorem yearly_fills_on_ramp (data : list DailyRecord)
    (calls : list Call) (tempType : TempType) :
  (forall d, In d data -> min_temperature d <= max_temperature d) ->
  let h := YearlyHeatmap.updateMatrix tempType
             (YearlyHeatmap.run calls (heatmap1 (initVisualizations data))) in
  Forall
    (fun r =>
       exists t, YearlyHeatmap.fill r = Some (Scale.interpolateYlOrRd (Some t))
                 /\ (0 <= t <= 1)%Q)
    (YearlyHeatmap.matrix h).
Proof.
  intros Hwf h. unfold h. rewrite updateMatrix1_matrix.
  apply Forall_forall. intros r (s & <- & Hs)%in_map_iff. simpl.
  rewrite page_heatmap1 in Hs.
  change (YearlyHeatmap.colorScale (heatmap1 (initVisualizations data)))
    with (d3.min (createAggregatedData data) Summary.min,
          d3.max (createAggregatedData data) Summary.max).
  rewrite summaries_min, summaries_max.
  apply summary_In in Hs. destruct Hs as (y & m & Hex & ->).
  pose proof (group_nonempty data y m Hex) as Hne.
  destruct tempType; simpl.
  - destruct (attained_max _ max_temperature Hne) as (a & Ha & ->).
    apply filter_In in Ha. destruct Ha as [Ha _].
    destruct (between_min_max data min_temperature a Ha) as (lo & hi' & -> & _ & Hlo).
    destruct (between_min_max data max_temperature a Ha) as (lo' & hi & _ & -> & Hhi).
    apply sequential_on_ramp. specialize (Hwf a Ha). lia.
  - destruct (attained_min _ min_temperature Hne) as (a & Ha & ->).
    apply filter_In in Ha. destruct Ha as [Ha _].
    destruct (between_min_max data min_temperature a Ha) as (lo & hi' & -> & _ & Hlo).
    destruct (between_min_max data max_temperature a Ha) as (lo' & hi & _ & -> & Hhi).
    apply sequential_on_ramp. specialize (Hwf a Ha). lia.
Qed.

Lemma yearly_fills_on_ramp_witness :
  (forall d, In d scenario -> min_temperature d <= max_temperature d)
  /\ Forall
       (fun r =>
          exists t, YearlyHeatmap.fill r = Some (Scale.interpolateYlOrRd (Some t))
                    /\ (0 <= t <= 1)%Q)
       (YearlyHeatmap.matrix
          (YearlyHeatmap.updateMatrix TMin
             (YearlyHeatmap.run [] (heatmap1 (initVisualizations scenario))))).
Proof.
  assert (forall d, In d scenario -> min_temperature d <= max_temperature d) as Hwf.
  { intros d [<- | [<- | [<- | []]]]; vm_compute; discriminate. }
  split; [exact Hwf|].
  exact (yearly_fills_on_ramp scenario [] TMin Hwf).
Defined.







(* ================================================================== *)
(** * Further properties of the drawing's size and of the first selection *)
(* ================================================================== *)

Lemma NoDup_keys_in_box (l : list Join.Key) (lo : Z) :
  NoDup l ->
  (forall k, In k l -> lo <= fst k < lo + 10 /\ 1 <= snd k <= 12) ->
  (length l <= 120)%nat.
Proof.
  intros Hnd Hr.
  set (ys := map (fun i => lo + Z.of_nat i) (seq 0 10)).
  set (ms := map (fun i => 1 + Z.of_nat i) (seq 0 12)).
  assert (length (list_prod ys ms) = 120%nat) as Hl.
  { rewrite length_prod. subst ys ms. rewrite !length_map, !length_seq. reflexivity. }
  rewrite <- Hl. apply NoDup_incl_length; [assumption|].
  intros [y m] Hk. destruct (Hr _ Hk) as [Hy Hm]. simpl in Hy, Hm.
  apply in_prod; apply in_map_iff.
  - exists (Z.to_nat (y - lo)). split; [lia | apply in_seq; lia].
  - exists (Z.to_nat (m - 1)). split; [lia | apply in_seq; lia].
Qed.

(** X19. The recent-years view never draws more than 120 cells: when [Yn] is
    the latest year of the records then, whatever calls were made, there is
    one cell per bucket, every cell is of a year in [Yn - 9, Yn] and of a
    month in 1..12, and there are at most 120 cells. *)
Theorem recent_years_cell_count (data : list DailyRecord) (Yn : Z)
    (calls : list Call) :
  is_max_of Yn (map year_of data) ->
  let h := RecentYearsHeatmap.run calls (heatmap2 (initVisualizations data)) in
  map RecentYearsHeatmap.datum (RecentYearsHeatmap.cells h)
  = RecentYearsHeatmap.processedDailyData h
  /\ (forall c, In c (RecentYearsHeatmap.cells h) ->
        Yn - 9 <= Bucket.year (RecentYearsHeatmap.datum c) <= Yn
        /\ 1 <= Bucket.month (RecentYearsHeatmap.datum c) <= 12)
  /\ (length (RecentYearsHeatmap.cells h) <= 120)%nat.
Proof.
  intros Hmax h.
  destruct (page_heatmap2_reached data calls) as ((Hp & _) & [f Hd] & Hnd).
  fold h in Hp, Hd, Hnd.
  assert (map RecentYearsHeatmap.datum (RecentYearsHeatmap.cells h)
          = RecentYearsHeatmap.processedDailyData h) as Hdat.
  { rewrite Hd, map_map. apply map_id. }
  assert (forall b, In b (RecentYearsHeatmap.processedDailyData h) ->
            Yn - 9 <= Bucket.year b <= Yn /\ 1 <= Bucket.month b <= 12) as Hr.
  { intros b Hb. rewrite Hp, page_processedDailyData, page_filteredData in Hb.
    rewrite (proj2 (d3_max_is_max data year_of Yn) Hmax) in Hb.
    apply bucket_years in Hb. destruct Hb as (d & Hin & <- & <-).
    apply filter_In in Hin. destruct Hin as [Hin Hw]. simpl in Hw.
    apply Z.leb_le in Hw. destruct Hmax as [_ Hle].
    specialize (Hle _ (in_map year_of _ _ Hin)).
    pose proof (month_of_range d). lia. }
  split; [exact Hdat|]. split.
  - intros c Hc. apply Hr. rewrite <- Hdat. now apply in_map.
  - rewrite <- (length_map RecentYearsHeatmap.datum), Hdat.
    rewrite <- (length_map RecentYearsHeatmap.key).
    apply (NoDup_keys_in_box _ (Yn - 9) Hnd).
    intros k (b & <- & Hb)%in_map_iff. specialize (Hr b Hb). simpl. lia.
Qed.

Lemma recent_years_cell_count_witness :
  is_max_of 2020 (map year_of eleven_years)
  /\ (length
        (RecentYearsHeatmap.cells
           (RecentYearsHeatmap.run []
              (heatmap2 (initVisualizations eleven_years)))) <= 120)%nat.
Proof.
  assert (is_max_of 2020 (map year_of eleven_years)) as Hmax.
  { vm_compute. split; [now left|].
    intros x H. repeat (destruct H as [<- | H]; [discriminate|]). contradiction. }
  split; [exact Hmax|].
  exact (proj2 (proj2 (recent_years_cell_count eleven_years 2020 [] Hmax))).
Defined.

(** X20. In the recent-years view only a [mousemove] that finds a day places
    the tooltip: after any sequence of hover events the tooltip's position is
    either the one it had before, or ten pixels right of and ten pixels above
    the page position of one of the sequence's [mousemove] events whose
    pointer was over a day.  [mouseover], which shows the tooltip, never
    places it. *)
Theorem tooltip_placed_by_mousemove (h : RecentYearsHeatmap.t)
    (events : list Hover) (tooltip : Tooltip.t) :
  let t := hovers h events tooltip in
  (Tooltip.left t = Tooltip.left tooltip /\ Tooltip.top t = Tooltip.top tooltip)
  \/ exists d event,
       In (Mousemove d event) events
       /\ RecentYearsHeatmap.dayData h d event <> None
       /\ Tooltip.left t = Some (pageX event + 10)
       /\ Tooltip.top t = Some (pageY event - 10).
Proof.
  revert tooltip. induction events as [|e events IH]; intros tooltip; simpl.
  - left. split; reflexivity.
  - destruct (IH (RecentYearsHeatmap.hover h e tooltip))
      as [[Hl Ht] | (d & event & Hin & Hday & Hl & Ht)].
    + unfold hovers in *. simpl. rewrite Hl, Ht.
      destruct e as [d event | d event |]; simpl.
      * left. unfold RecentYearsHeatmap.mouseover.
        destruct (RecentYearsHeatmap.dayData h d event); split; reflexivity.
      * unfold RecentYearsHeatmap.mousemove.
        destruct (RecentYearsHeatmap.dayData h d event) as [day|] eqn:E.
        -- right. exists d, event. split; [now left|].
           split; [congruence|]. split; reflexivity.
        -- left. split; reflexivity.
      * left. split; reflexivity.
    + right. exists d, event. split; [now right|].
      split; [assumption|]. split; assumption.
Qed.

Lemma yearly_eta (h : YearlyHeatmap.t) :
  h = YearlyHeatmap.mk (YearlyHeatmap.processedData h) (YearlyHeatmap.xScale h)
        (YearlyHeatmap.yScale h) (YearlyHeatmap.colorScale h)
        (YearlyHeatmap.legendScale h) (YearlyHeatmap.matrix h).
Proof. destruct h. reflexivity. Qed.

Lemma recent_years_eta (h : RecentYearsHeatmap.t) :
  h = RecentYearsHeatmap.mk (RecentYearsHeatmap.processedDailyData h)
        (RecentYearsHeatmap.filteredData h) (RecentYearsHeatmap.xScale h)
        (RecentYearsHeatmap.yScale h) (RecentYearsHeatmap.globalMiniExtent h)
        (RecentYearsHeatmap.legendScale h) (RecentYearsHeatmap.cells h).
Proof. destruct h. reflexivity. Qed.

(** X21. The page is first drawn for max: selecting max on the page as
    [initVisualizations] leaves it redraws nothing in either view; the
    selection only sets the two legend domains, to the extent of the maxima. *)
Theorem first_max_selection_only_sets_legends (data : list DailyRecord) :
  let p := initVisualizations data in
  YearlyHeatmap.updateMatrix TMax (heatmap1 p) = heatmap1 p
  /\ RecentYearsHeatmap.updateMatrix TMax (heatmap2 p) = heatmap2 p
  /\ heatmap1 (change TMax p) = YearlyHeatmap.updateLegend TMax (heatmap1 p)
  /\ heatmap2 (change TMax p) = RecentYearsHeatmap.updateLegend TMax (heatmap2 p)
  /\ YearlyHeatmap.legendScale (heatmap1 (change TMax p))
     = (d3.min (createAggregatedData data) Summary.max,
        d3.max (createAggregatedData data) Summary.max).
Proof.
  intros p.
  assert (YearlyHeatmap.updateMatrix TMax (heatmap1 p) = heatmap1 p) as H1.
  { rewrite updateMatrix1_eq; [|apply summaries_NoDup | apply create1_drawn].
    symmetry. etransitivity; [apply yearly_eta|]. f_equal.
    change (heatmap1 p)
      with (YearlyHeatmap.updateMatrix TMax
              (YearlyHeatmap.mk (createAggregatedData data)
                 (YearlyHeatmap.xScale (heatmap1 p))
                 (YearlyHeatmap.yScale (heatmap1 p))
                 (YearlyHeatmap.colorScale (heatmap1 p))
                 (YearlyHeatmap.legendScale (heatmap1 p)) [])) at 1.
    rewrite updateMatrix1_first by reflexivity. reflexivity. }
  assert (RecentYearsHeatmap.updateMatrix TMax (heatmap2 p) = heatmap2 p) as H2.
  { rewrite updateMatrix2_eq; [|apply buckets_NoDup | apply create2_drawn].
    symmetry. etransitivity; [apply recent_years_eta|]. f_equal.
    change (heatmap2 p)
      with (RecentYearsHeatmap.updateMatrix TMax
              (RecentYearsHeatmap.mk
                 (RecentYearsHeatmap.processedDailyData (heatmap2 p))
                 (RecentYearsHeatmap.filteredData (heatmap2 p))
                 (RecentYearsHeatmap.xScale (heatmap2 p))
                 (RecentYearsHeatmap.yScale (heatmap2 p))
                 (RecentYearsHeatmap.globalMiniExtent (heatmap2 p))
                 (RecentYearsHeatmap.legendScale (heatmap2 p)) [])) at 1.
    rewrite updateMatrix2_first by reflexivity. reflexivity. }
  assert (heatmap1 (change TMax p)
          = YearlyHeatmap.updateLegend TMax
              (YearlyHeatmap.updateMatrix TMax (heatmap1 p))) as E1 by reflexivity.
  assert (heatmap2 (change TMax p)
          = RecentYearsHeatmap.updateLegend TMax
              (RecentYearsHeatmap.updateMatrix TMax (heatmap2 p))) as E2
    by reflexivity.
  rewrite H1 in E1. rewrite H2 in E2.
  split; [exact H1|]. split; [exact H2|]. split; [exact E1|]. split; [exact E2|].
  rewrite E1.
  change (YearlyHeatmap.legendScale
            (YearlyHeatmap.updateLegend TMax (heatmap1 p)))
    with (d3.extent (createAggregatedData data) Summary.max).
  apply d3_extent_min_max.
Qed.
